(** * Therduce climate control: actuator safety layer and hybrid control engine

    A shallow embedding of [climate_control/actuators.py],
    [climate_control/control_engine.py] and [climate_control/settings.py].

    Numbers.  Python floats (temperatures, humidities, seconds) are modelled
    as exact rationals [Q]; integers that are only counted are [nat], urgency
    and priority scores are [Z].

    Effects.  Every call of [time.time()] is one read of a clock; two reads in
    one method may return different instants.  GPIO writes may raise, the
    water level input may raise.  All of this lives in a [World] threaded
    through a small state monad [M]. *)

From Stdlib Require Import String.
From Stdlib Require Import QArith Qabs ZArith List Bool Lia Lqa.
Import ListNotations.
Local Open Scope Q_scope.

(** ** Rational comparisons as booleans *)

Definition Qlt_bool (x y : Q) : bool := negb (Qle_bool y x).

(** Python truthiness of a float: [0.0] is falsy. *)
Definition float_truthy (t : Q) : bool := negb (Qeq_bool t 0).

(** Python truthiness of [Optional[float]]: [None] and [0.0] are falsy. *)
Definition opt_truthy (o : option Q) : bool :=
  match o with
  | Some t => float_truthy t
  | None => false
  end.

Definition from_option {A : Type} (o : option A) (d : A) : A :=
  match o with
  | Some a => a
  | None => d
  end.

(** ** The world outside the process *)

Record World : Type := mkWorld {
  clock : nat -> Q;             (* result of the n-th call of time.time() *)
  reads : nat;                  (* calls of time.time() made so far *)
  gpio_present : bool;          (* RPi.GPIO could be imported *)
  pin_level : Z -> bool;        (* level driven on each pin, true = GPIO.HIGH *)
  output_raises : Z -> bool;    (* GPIO.output on that pin raises *)
  input_level : Z -> option bool (* GPIO.input, None when it raises *)
}.

Definition M (A : Type) : Type := World -> A * World.

Definition ret {A : Type} (a : A) : M A := fun w => (a, w).

Definition bind {A B : Type} (m : M A) (f : A -> M B) : M B :=
  fun w => let (a, w') := m w in f a w'.

Declare Scope monad_scope.
Delimit Scope monad_scope with monad.
Notation "x <- m ;; k" := (bind m (fun x => k))
  (at level 61, m at next level, right associativity) : monad_scope.
Notation "m ;;; k" := (bind m (fun _ => k))
  (at level 61, right associativity) : monad_scope.
Local Open Scope monad_scope.

(** [time.time()] *)
Definition time_time : M Q :=
  fun w => (clock w (reads w),
            mkWorld (clock w) (S (reads w)) (gpio_present w) (pin_level w)
                    (output_raises w) (input_level w)).

Definition drive_pin (w : World) (pin : Z) (value : bool) : World :=
  mkWorld (clock w) (reads w) (gpio_present w)
          (fun p => if Z.eqb p pin then value else pin_level w p)
          (output_raises w) (input_level w).

(** [GPIO.output(pin, value)]; the result is [false] when the call raises. *)
Definition GPIO_output (pin : Z) (value : bool) : M bool :=
  fun w => if output_raises w pin then (false, w)
           else (true, drive_pin w pin value).

(** [GPIO.setup(pin, GPIO.OUT, initial=value)] *)
Definition GPIO_setup_out (pin : Z) (value : bool) : M unit :=
  fun w => (tt, drive_pin w pin value).

(** [GPIO.input(pin)]; [None] when the call raises. *)
Definition GPIO_input (pin : Z) : M (option bool) :=
  fun w => (input_level w pin, w).

Definition GPIO_HIGH : bool := true.
Definition GPIO_LOW : bool := false.

(** ** settings.py *)

Module Settings.

Record Targets : Type := mkTargets {
  temp_min : option Q;
  temp_target : option Q;
  temp_max : option Q;
  humidity_min : option Q;
  humidity_target : option Q;
  humidity_max : option Q;
  temp_rate_warning : option Q;
  humidity_rate_warning : option Q
}.

Record Gpio : Type := mkGpio {
  water_pump : option Z;
  chiller : option Z;
  dehumidifier : option Z;
  water_level_sensor : option Z
}.

Record ActuatorParams : Type := mkActuatorParams {
  min_cycle_time : option Q;
  max_pump_runtime : option Q;
  max_chiller_runtime : option Q;
  max_dehumidifier_runtime : option Q;
  spray_duration : option Q;
  spray_cooldown : option Q
}.

Record Control : Type := mkControl {
  temp_hysteresis : option Q;
  humidity_hysteresis : option Q;
  prediction_window : option Q;
  history_samples : option nat;
  priority_temperature : option Z;
  priority_humidity : option Z;
  priority_energy : option Z
}.

Record Safety : Type := mkSafety {
  enable_water_level_check : option bool;
  emergency_shutdown_temp : option Q
}.

(** The configuration dictionary; a key that is absent is [None], and every
    reader supplies its own default as the source does with [dict.get]. *)
Record Config : Type := mkConfig {
  targets : Targets;
  gpio : Gpio;
  actuators : ActuatorParams;
  control : Control;
  safety : Safety
}.

(** [config or {}] for [config = None]. *)
Definition empty_config : Config :=
  mkConfig (mkTargets None None None None None None None None)
           (mkGpio None None None None)
           (mkActuatorParams None None None None None None)
           (mkControl None None None None None None None)
           (mkSafety None None).

Definition TARGET_TEMP_MIN : Q := 10.
Definition TARGET_TEMP : Q := 11.
Definition TARGET_TEMP_MAX : Q := 122 # 10.
Definition TARGET_HUMIDITY_MIN : Q := 85.
Definition TARGET_HUMIDITY : Q := 875 # 10.
Definition TARGET_HUMIDITY_MAX : Q := 90.
Definition TEMP_RATE_WARNING : Q := 5 # 10.
Definition HUMIDITY_RATE_WARNING : Q := 2.

Definition GPIO_WATER_PUMP : Z := 17.
Definition GPIO_CHILLER : Z := 27.
Definition GPIO_DEHUMIDIFIER : Z := 22.
Definition GPIO_WATER_LEVEL_SENSOR : Z := 23.

Definition ACTUATOR_MIN_CYCLE_TIME : Q := 10.
Definition ACTUATOR_MAX_PUMP_RUNTIME : Q := 600.
Definition ACTUATOR_MAX_CHILLER_RUNTIME : Q := 1800.
Definition ACTUATOR_MAX_DEHUMIDIFIER_RUNTIME : Q := 1200.
Definition ACTUATOR_SPRAY_DURATION : Q := 5.
Definition ACTUATOR_SPRAY_COOLDOWN : Q := 30.

Definition CONTROL_TEMP_HYSTERESIS : Q := 5 # 10.
Definition CONTROL_HUMIDITY_HYSTERESIS : Q := 2.
Definition CONTROL_PREDICTION_WINDOW : Q := 5.
Definition CONTROL_HISTORY_SAMPLES : nat := 20.
Definition CONTROL_PRIORITY_TEMPERATURE : Z := 10.
Definition CONTROL_PRIORITY_HUMIDITY : Z := 7.
Definition CONTROL_PRIORITY_ENERGY : Z := 3.

Definition SAFETY_ENABLE_WATER_LEVEL_CHECK : bool := true.
Definition SAFETY_EMERGENCY_SHUTDOWN_TEMP : Q := 15.

(** The sections of [get_config_dict] that the actuator bank and the control
    engine read. *)
Definition get_config_dict : Config :=
  mkConfig
    (mkTargets (Some TARGET_TEMP_MIN) (Some TARGET_TEMP) (Some TARGET_TEMP_MAX)
               (Some TARGET_HUMIDITY_MIN) (Some TARGET_HUMIDITY)
               (Some TARGET_HUMIDITY_MAX)
               (Some TEMP_RATE_WARNING) (Some HUMIDITY_RATE_WARNING))
    (mkGpio (Some GPIO_WATER_PUMP) (Some GPIO_CHILLER) (Some GPIO_DEHUMIDIFIER)
            (Some GPIO_WATER_LEVEL_SENSOR))
    (mkActuatorParams (Some ACTUATOR_MIN_CYCLE_TIME)
                      (Some ACTUATOR_MAX_PUMP_RUNTIME)
                      (Some ACTUATOR_MAX_CHILLER_RUNTIME)
                      (Some ACTUATOR_MAX_DEHUMIDIFIER_RUNTIME)
                      (Some ACTUATOR_SPRAY_DURATION)
                      (Some ACTUATOR_SPRAY_COOLDOWN))
    (mkControl (Some CONTROL_TEMP_HYSTERESIS) (Some CONTROL_HUMIDITY_HYSTERESIS)
               (Some CONTROL_PREDICTION_WINDOW) (Some CONTROL_HISTORY_SAMPLES)
               (Some CONTROL_PRIORITY_TEMPERATURE)
               (Some CONTROL_PRIORITY_HUMIDITY)
               (Some CONTROL_PRIORITY_ENERGY))
    (mkSafety (Some SAFETY_ENABLE_WATER_LEVEL_CHECK)
              (Some SAFETY_EMERGENCY_SHUTDOWN_TEMP)).

End Settings.

(** ** actuators.py *)

Module Actuators.

Inductive ActuatorState : Type := OFF | ON | FAULT.

Definition state_eqb (s1 s2 : ActuatorState) : bool :=
  match s1, s2 with
  | OFF, OFF | ON, ON | FAULT, FAULT => true
  | _, _ => false
  end.

Record Actuator : Type := mkActuator {
  name : string;
  gpio_pin : Z;
  min_cycle_time : Q;
  max_runtime : Q;
  active_low : bool;
  state : ActuatorState;
  last_state_change : Q;
  runtime_start : option Q;
  total_runtime : Q;
  cycle_count : nat
}.

(** [Actuator.__init__] *)
Definition Actuator_init (name : string) (gpio_pin : Z) (min_cycle_time : Q)
    (max_runtime : Q) (active_low : bool) : Actuator :=
  mkActuator name gpio_pin min_cycle_time max_runtime active_low
             OFF 0 None 0 0.

(** [actuator.state = s] *)
Definition set_state (a : Actuator) (s : ActuatorState) : Actuator :=
  mkActuator (name a) (gpio_pin a) (min_cycle_time a) (max_runtime a)
             (active_low a) s (last_state_change a) (runtime_start a)
             (total_runtime a) (cycle_count a).

Definition can_change_state (a : Actuator) : M bool :=
  now <- time_time ;;
  let elapsed := now - last_state_change a in
  ret (Qle_bool (min_cycle_time a) elapsed).

Definition is_runtime_exceeded (a : Actuator) : M bool :=
  if state_eqb (state a) ON && opt_truthy (runtime_start a) then
    now <- time_time ;;
    let runtime := now - from_option (runtime_start a) 0 in
    ret (Qle_bool (max_runtime a) runtime)
  else ret false.

Definition turn_on (a : Actuator) : M (bool * Actuator) :=
  if state_eqb (state a) ON then ret (true, a)
  else
    ok <- can_change_state a ;;
    if negb ok then ret (false, a)
    else
      t_change <- time_time ;;
      t_start <- time_time ;;
      ret (true,
           mkActuator (name a) (gpio_pin a) (min_cycle_time a) (max_runtime a)
                      (active_low a) ON t_change (Some t_start)
                      (total_runtime a) (S (cycle_count a))).

Definition turn_off (a : Actuator) : M (bool * Actuator) :=
  if state_eqb (state a) OFF then ret (true, a)
  else
    total <-
      (if state_eqb (state a) ON && opt_truthy (runtime_start a) then
         now <- time_time ;;
         let runtime := now - from_option (runtime_start a) 0 in
         ret (total_runtime a + runtime)
       else ret (total_runtime a)) ;;
    t_change <- time_time ;;
    ret (true,
         mkActuator (name a) (gpio_pin a) (min_cycle_time a) (max_runtime a)
                    (active_low a) OFF t_change None total (cycle_count a)).

Definition emergency_stop (a : Actuator) : Actuator :=
  mkActuator (name a) (gpio_pin a) (min_cycle_time a) (max_runtime a)
             (active_low a) OFF (last_state_change a) None
             (total_runtime a) (cycle_count a).

(** The three entries of the [actuators] dictionary, in insertion order, and
    the other attributes of [ActuatorController]. *)
Record ActuatorController : Type := mkController {
  gpio_config : Settings.Gpio;
  actuator_config : Settings.ActuatorParams;
  safety_config : Settings.Safety;
  pump : Actuator;
  chiller : Actuator;
  dehumidifier : Actuator;
  gpio_initialized : bool;
  water_level_ok : bool;
  emergency_mode : bool
}.

Definition with_pump (c : ActuatorController) (a : Actuator) :=
  mkController (gpio_config c) (actuator_config c) (safety_config c)
               a (chiller c) (dehumidifier c)
               (gpio_initialized c) (water_level_ok c) (emergency_mode c).

Definition with_chiller (c : ActuatorController) (a : Actuator) :=
  mkController (gpio_config c) (actuator_config c) (safety_config c)
               (pump c) a (dehumidifier c)
               (gpio_initialized c) (water_level_ok c) (emergency_mode c).

Definition with_dehumidifier (c : ActuatorController) (a : Actuator) :=
  mkController (gpio_config c) (actuator_config c) (safety_config c)
               (pump c) (chiller c) a
               (gpio_initialized c) (water_level_ok c) (emergency_mode c).

Definition with_water_level_ok (c : ActuatorController) (b : bool) :=
  mkController (gpio_config c) (actuator_config c) (safety_config c)
               (pump c) (chiller c) (dehumidifier c)
               (gpio_initialized c) b (emergency_mode c).


(** [_initialize_gpio]: the result is the new [gpio_initialized]. *)
Definition _initialize_gpio : M bool :=
  fun w => (gpio_present w, w).

Definition initial_level (a : Actuator) : bool :=
  if active_low a then GPIO_HIGH else GPIO_LOW.

(** [__init__], with [_setup_actuators] inlined after [_initialize_gpio] as
    the constructor runs them.  [GPIO.setmode] is taken not to raise; the
    set-up of the water level pin as an input drives no output and is left
    out. *)
Definition ActuatorController_init (config : Settings.Config)
  : M ActuatorController :=
  let gpio_config := Settings.gpio config in
  let actuator_config := Settings.actuators config in
  let safety_config := Settings.safety config in
  initialized <- _initialize_gpio ;;
  let water_pump_pin := from_option (Settings.water_pump gpio_config) 17%Z in
  let chiller_pin := from_option (Settings.chiller gpio_config) 27%Z in
  let dehumidifier_pin :=
    from_option (Settings.dehumidifier gpio_config) 22%Z in
  let min_cycle := from_option (Settings.min_cycle_time actuator_config) 10 in
  let max_pump_runtime :=
    from_option (Settings.max_pump_runtime actuator_config) 600 in
  let max_chiller_runtime :=
    from_option (Settings.max_chiller_runtime actuator_config) 1800 in
  let max_dehumidifier_runtime :=
    from_option (Settings.max_dehumidifier_runtime actuator_config) 1200 in
  let p := Actuator_init "Water Pump" water_pump_pin min_cycle
                         max_pump_runtime true in
  let c := Actuator_init "Chiller" chiller_pin min_cycle
                         max_chiller_runtime true in
  let d := Actuator_init "Dehumidifier" dehumidifier_pin min_cycle
                         max_dehumidifier_runtime true in
  (if initialized then
     GPIO_setup_out (gpio_pin p) (initial_level p) ;;;
     GPIO_setup_out (gpio_pin c) (initial_level c) ;;;
     GPIO_setup_out (gpio_pin d) (initial_level d)
   else ret tt) ;;;
  ret (mkController gpio_config actuator_config safety_config p c d
                    initialized true false).

(** [_set_gpio_state(actuator, state)]: returns the actuator, whose [state]
    becomes [FAULT] when the write raises. *)
Definition _set_gpio_state (c : ActuatorController) (a : Actuator)
    (on : bool) : M Actuator :=
  if negb (gpio_initialized c) then ret a
  else
    let gpio_value :=
      if (on && active_low a) || (negb on && negb (active_low a))
      then GPIO_LOW else GPIO_HIGH in
    written <- GPIO_output (gpio_pin a) gpio_value ;;
    if written then ret a else ret (set_state a FAULT).

(** [check_water_level]: the result and the controller with its cached
    [water_level_ok]. *)
Definition check_water_level (c : ActuatorController)
  : M (bool * ActuatorController) :=
  if negb (gpio_initialized c) then ret (true, c)
  else if negb (from_option
                  (Settings.enable_water_level_check (safety_config c)) true)
  then ret (true, c)
  else
    let water_level_pin :=
      from_option (Settings.water_level_sensor (gpio_config c)) 23%Z in
    level <- GPIO_input water_level_pin ;;
    match level with
    | Some v =>
        let level_ok := Bool.eqb v GPIO_HIGH in
        ret (level_ok, with_water_level_ok c level_ok)
    | None => ret (false, c)
    end.

(** The body shared by [set_pump], [set_chiller] and [set_dehumidifier]:
    [turn_on]/[turn_off], then the output write only on success. *)
Definition command (c : ActuatorController) (a : Actuator) (on : bool)
  : M (bool * Actuator) :=
  if on then
    r <- turn_on a ;;
    let (success, a1) := (r : bool * Actuator) in
    if success then
      a2 <- _set_gpio_state c a1 true ;;
      ret (success, a2)
    else ret (success, a1)
  else
    r <- turn_off a ;;
    let (success, a1) := (r : bool * Actuator) in
    if success then
      a2 <- _set_gpio_state c a1 false ;;
      ret (success, a2)
    else ret (success, a1).

Definition set_pump (c : ActuatorController) (on : bool)
  : M (bool * ActuatorController) :=
  r <- (if on then check_water_level c else ret (true, c)) ;;
  let (level_ok, c1) := (r : bool * ActuatorController) in
  if on && negb level_ok then ret (false, c1)
  else
    r2 <- command c1 (pump c1) on ;;
    let (success, a) := (r2 : bool * Actuator) in
    ret (success, with_pump c1 a).

Definition set_chiller (c : ActuatorController) (on : bool)
  : M (bool * ActuatorController) :=
  r <- command c (chiller c) on ;;
  let (success, a) := (r : bool * Actuator) in
  ret (success, with_chiller c a).

Definition set_dehumidifier (c : ActuatorController) (on : bool)
  : M (bool * ActuatorController) :=
  r <- command c (dehumidifier c) on ;;
  let (success, a) := (r : bool * Actuator) in
  ret (success, with_dehumidifier c a).

(** One iteration of the loop of [check_safety] over [self.actuators.items()]:
    [get] reads the entry, [force_off] is the setter the loop picks by name.
    The result is the new [all_ok]. *)
Definition sweep_entry (get : ActuatorController -> Actuator)
    (force_off : ActuatorController -> bool -> M (bool * ActuatorController))
    (acc : bool * ActuatorController) : M (bool * ActuatorController) :=
  let (all_ok, c) := acc in
  exceeded <- is_runtime_exceeded (get c) ;;
  if exceeded then
    r <- force_off c false ;;
    ret (false, snd (r : bool * ActuatorController))
  else ret (all_ok, c).

Definition check_safety (c : ActuatorController)
  : M (bool * ActuatorController) :=
  s1 <- sweep_entry pump set_pump (true, c) ;;
  s2 <- sweep_entry chiller set_chiller s1 ;;
  s3 <- sweep_entry dehumidifier set_dehumidifier s2 ;;
  let (all_ok, c3) := (s3 : bool * ActuatorController) in
  r <- check_water_level c3 ;;
  let (level_ok, c4) := (r : bool * ActuatorController) in
  if negb level_ok then
    (if state_eqb (state (pump c4)) ON then
       r2 <- set_pump c4 false ;;
       ret (false, snd (r2 : bool * ActuatorController))
     else ret (false, c4))
  else ret (all_ok, c4).


End Actuators.

(** ** control_engine.py *)

Module ControlEngine.

Inductive CoolingMode : Type :=
  IDLE | EVAPORATIVE | CHILLER | DEHUMIDIFY | COOL_AND_DEHUMIDIFY | EMERGENCY.

(** The members of the enumeration, in declaration order: the key order of
    [mode_durations]. *)
Definition all_modes : list CoolingMode :=
  [IDLE; EVAPORATIVE; CHILLER; DEHUMIDIFY; COOL_AND_DEHUMIDIFY; EMERGENCY].

Definition mode_eqb (m1 m2 : CoolingMode) : bool :=
  match m1, m2 with
  | IDLE, IDLE | EVAPORATIVE, EVAPORATIVE | CHILLER, CHILLER
  | DEHUMIDIFY, DEHUMIDIFY | COOL_AND_DEHUMIDIFY, COOL_AND_DEHUMIDIFY
  | EMERGENCY, EMERGENCY => true
  | _, _ => false
  end.

(** The assessment strings; the two formatted ones keep the number they
    embed. *)
Inductive Assessment : Type :=
| critically_high
| high
| above_target
| critically_low
| below_target
| rising_rapidly (predicted : Q)
| falling_rapidly (predicted : Q)
| optimal.

(** The [reason] f-strings, one constructor per template, with the values
    they interpolate. *)
Inductive Reason : Type :=
| reason_emergency (temperature emergency_temp : Q)
| reason_aggressive_cooling (temp_assessment : Assessment)
| reason_chiller_dehumidifier (temp_assessment humidity_assessment : Assessment)
| reason_coordinated (temp_assessment humidity_assessment : Assessment)
| reason_dehumidifying (humidity_assessment : Assessment)
| reason_evaporative (temp_assessment : Assessment)
| reason_moderate_cooling (temp_assessment humidity_assessment : Assessment)
| reason_predictive (temp_rate : Q)
| reason_optimal (temp_assessment humidity_assessment : Assessment).

Record ControlDecision : Type := mkDecision {
  mode : CoolingMode;
  pump : bool;
  chiller : bool;
  dehumidifier : bool;
  reason : Reason;
  priority : Z;
  decision_timestamp : Q        (* [ControlDecision.timestamp] *)
}.

(** [ControlDecision.__init__] *)
Definition ControlDecision_init (mode : CoolingMode)
    (pump chiller dehumidifier : bool) (reason : Reason) (priority : Z)
  : M ControlDecision :=
  now <- time_time ;;
  ret (mkDecision mode pump chiller dehumidifier reason priority now).

Record SensorReading : Type := mkReading {
  temperature : Q;
  humidity : Q;
  timestamp : Q
}.

(** [SensorReading.__init__] with [timestamp=None], the only way the engine
    builds one. *)
Definition SensorReading_init (temperature humidity : Q) : M SensorReading :=
  now <- time_time ;;
  ret (mkReading temperature humidity now).

Inductive Exn : Type := IndexError.

Inductive Result (A : Type) : Type :=
| Ok (a : A)
| Raise (ex : Exn).
Arguments Ok {A} a.
Arguments Raise {A} ex.

Record Engine : Type := mkEngine {
  control_params : Settings.Control;
  actuator_params : Settings.ActuatorParams;
  safety_params : Settings.Safety;
  temp_target : Q;
  temp_min : Q;
  temp_max : Q;
  humidity_target : Q;
  humidity_min : Q;
  humidity_max : Q;
  temp_hysteresis : Q;
  humidity_hysteresis : Q;
  temp_rate_warning : Q;
  humidity_rate_warning : Q;
  max_history : nat;            (* [maxlen] of the three deques *)
  temp_history : list Q;        (* oldest first *)
  humidity_history : list Q;
  reading_history : list SensorReading;
  current_mode : CoolingMode;
  last_decision : option ControlDecision;
  last_mode_change : Q;
  spray_last_activated : Q;
  decisions_made : nat;
  mode_durations : CoolingMode -> Q
}.

(** [HybridControlEngine.__init__] *)
Definition HybridControlEngine_init (config : Settings.Config) : M Engine :=
  let targets := Settings.targets config in
  let control_params := Settings.control config in
  let max_history :=
    from_option (Settings.history_samples control_params) 20%nat in
  now <- time_time ;;
  ret (mkEngine control_params (Settings.actuators config)
         (Settings.safety config)
         (from_option (Settings.temp_target targets) 5)
         (from_option (Settings.temp_min targets) 2)
         (from_option (Settings.temp_max targets) 8)
         (from_option (Settings.humidity_target targets) 90)
         (from_option (Settings.humidity_min targets) 85)
         (from_option (Settings.humidity_max targets) 95)
         (from_option (Settings.temp_hysteresis control_params) (5 # 10))
         (from_option (Settings.humidity_hysteresis control_params) 2)
         (from_option (Settings.temp_rate_warning targets) (5 # 10))
         (from_option (Settings.humidity_rate_warning targets) 2)
         max_history [] [] []
         IDLE None now 0 0%nat (fun _ => 0)).

(** [deque.append] on a deque with [maxlen]: the oldest entries fall out. *)
Definition deque_append {A : Type} (maxlen : nat) (d : list A) (x : A)
  : list A :=
  let d' := d ++ [x] in
  skipn (length d' - maxlen) d'.

Definition with_histories (e : Engine) (temps hums : list Q)
    (readings : list SensorReading) : Engine :=
  mkEngine (control_params e) (actuator_params e) (safety_params e)
           (temp_target e) (temp_min e) (temp_max e)
           (humidity_target e) (humidity_min e) (humidity_max e)
           (temp_hysteresis e) (humidity_hysteresis e)
           (temp_rate_warning e) (humidity_rate_warning e)
           (max_history e) temps hums readings
           (current_mode e) (last_decision e) (last_mode_change e)
           (spray_last_activated e) (decisions_made e) (mode_durations e).

Definition with_tracking (e : Engine) (m : CoolingMode)
    (d : option ControlDecision) (changed : Q) (sprayed : Q) (n : nat)
    (durations : CoolingMode -> Q) : Engine :=
  mkEngine (control_params e) (actuator_params e) (safety_params e)
           (temp_target e) (temp_min e) (temp_max e)
           (humidity_target e) (humidity_min e) (humidity_max e)
           (temp_hysteresis e) (humidity_hysteresis e)
           (temp_rate_warning e) (humidity_rate_warning e)
           (max_history e) (temp_history e) (humidity_history e)
           (reading_history e)
           m d changed sprayed n durations.

Definition add_reading (e : Engine) (temperature humidity : Q) : M Engine :=
  reading <- SensorReading_init temperature humidity ;;
  ret (with_histories e
         (deque_append (max_history e) (temp_history e) temperature)
         (deque_append (max_history e) (humidity_history e) humidity)
         (deque_append (max_history e) (reading_history e) reading)).

(** [max(times)] and [min(times)]; both raise on an empty list in Python, and
    the only call site passes at least two elements. *)
Definition Qmax2 (x y : Q) : Q := if Qlt_bool x y then y else x.
Definition Qmin2 (x y : Q) : Q := if Qlt_bool y x then y else x.

Definition list_max (l : list Q) : Q :=
  match l with
  | [] => 0
  | x :: xs => fold_left Qmax2 xs x
  end.

Definition list_min (l : list Q) : Q :=
  match l with
  | [] => 0
  | x :: xs => fold_left Qmin2 xs x
  end.

(** The loop of [calculate_rate_of_change] over
    [enumerate(reversed(self.reading_history))]: [rvalues] is [values]
    reversed, so that [list(values)[-(i+1)]] is its [i]-th element, and the
    subscript raises when there is none. *)
Fixpoint recent_from (current_time time_window : Q) (rvalues : list Q)
    (i : nat) (rhist : list SensorReading) : Result (list (Q * Q)) :=
  match rhist with
  | [] => Ok []
  | reading :: rest =>
      let age := current_time - timestamp reading in
      if Qle_bool age time_window then
        match nth_error rvalues i with
        | Some v =>
            match recent_from current_time time_window rvalues (S i) rest with
            | Ok l => Ok ((timestamp reading, v) :: l)
            | Raise ex => Raise ex
            end
        | None => Raise IndexError
        end
      else Ok []
  end.

Definition calculate_rate_of_change (e : Engine) (values : list Q)
    (time_window : Q) : M (Result (option Q)) :=
  if (length values <? 2)%nat then ret (Ok None)
  else
    current_time <- time_time ;;
    match recent_from current_time time_window (rev values) 0
                      (rev (reading_history e)) with
    | Raise ex => ret (Raise ex)
    | Ok recent_readings =>
        if (length recent_readings <? 2)%nat then ret (Ok None)
        else
          let times := map fst recent_readings in
          let vals := map snd recent_readings in
          let time_range := list_max times - list_min times in
          if Qlt_bool time_range 1 then ret (Ok None)
          else
            let value_change := last vals 0 - hd 0 vals in
            let rate_per_second := value_change / time_range in
            let rate_per_minute := rate_per_second * 60 in
            ret (Ok (Some rate_per_minute))
    end.

Definition predict_future_value (current : Q) (rate : option Q)
    (minutes_ahead : Q) : Q :=
  match rate with
  | None => current
  | Some r => current + r * minutes_ahead
  end.

Definition rate_beyond (rate : option Q) (warning : Q) : bool :=
  match rate with
  | Some r => Qlt_bool warning (Qabs r)
  | None => false
  end.

Definition assess_temperature (e : Engine) (temperature : Q)
    (temp_rate : option Q) : Assessment * Z :=
  if Qlt_bool (temp_max e + 2) temperature then (critically_high, 10%Z)
  else if Qlt_bool (temp_max e) temperature then (high, 8%Z)
  else if Qlt_bool (temp_target e + temp_hysteresis e) temperature
  then (above_target, 6%Z)
  else if Qlt_bool temperature (temp_min e) then (critically_low, 9%Z)
  else if Qlt_bool temperature (temp_target e - temp_hysteresis e)
  then (below_target, 3%Z)
  else if rate_beyond temp_rate (temp_rate_warning e) then
    let prediction_window :=
      from_option (Settings.prediction_window (control_params e)) 5 in
    let future_temp :=
      predict_future_value temperature temp_rate prediction_window in
    if Qlt_bool (temp_max e) future_temp then (rising_rapidly future_temp, 7%Z)
    else if Qlt_bool future_temp (temp_min e)
    then (falling_rapidly future_temp, 4%Z)
    else (optimal, 0%Z)
  else (optimal, 0%Z).

Definition assess_humidity (e : Engine) (humidity : Q)
    (humidity_rate : option Q) : Assessment * Z :=
  if Qlt_bool (humidity_max e + 5) humidity then (critically_high, 9%Z)
  else if Qlt_bool (humidity_max e) humidity then (high, 7%Z)
  else if Qlt_bool (humidity_target e + humidity_hysteresis e) humidity
  then (above_target, 5%Z)
  else if Qlt_bool humidity (humidity_min e) then (critically_low, 8%Z)
  else if Qlt_bool humidity (humidity_target e - humidity_hysteresis e)
  then (below_target, 4%Z)
  else if rate_beyond humidity_rate (humidity_rate_warning e) then
    let prediction_window :=
      from_option (Settings.prediction_window (control_params e)) 5 in
    let future_humidity :=
      predict_future_value humidity humidity_rate prediction_window in
    if Qlt_bool (humidity_max e) future_humidity
    then (rising_rapidly future_humidity, 6%Z)
    else if Qlt_bool future_humidity (humidity_min e)
    then (falling_rapidly future_humidity, 5%Z)
    else (optimal, 0%Z)
  else (optimal, 0%Z).

Definition can_spray_now (e : Engine) : M bool :=
  let spray_cooldown :=
    from_option (Settings.spray_cooldown (actuator_params e)) 30 in
  now <- time_time ;;
  let elapsed := now - spray_last_activated e in
  ret (Qle_bool spray_cooldown elapsed).

(** The rules of [make_decision] after the emergency test.  The weighted
    scores [temp_score] and [humidity_score] are computed by the source and
    never read; they are left out. *)
Definition decide_rules (e : Engine) (humidity : Q) (temp_rate : option Q)
    (temp_assessment : Assessment) (temp_urgency : Z)
    (humidity_assessment : Assessment) (humidity_urgency : Z)
  : M ControlDecision :=
  if (8 <=? temp_urgency)%Z then
    if Qlt_bool humidity (humidity_max e) then
      ControlDecision_init CHILLER true true false
        (reason_aggressive_cooling temp_assessment) temp_urgency
    else
      ControlDecision_init COOL_AND_DEHUMIDIFY false true true
        (reason_chiller_dehumidifier temp_assessment humidity_assessment)
        (Z.max temp_urgency humidity_urgency)
  else if (7 <=? humidity_urgency)%Z then
    if (3 <? temp_urgency)%Z then
      ControlDecision_init COOL_AND_DEHUMIDIFY false true true
        (reason_coordinated temp_assessment humidity_assessment)
        (Z.max temp_urgency humidity_urgency)
    else
      ControlDecision_init DEHUMIDIFY false false true
        (reason_dehumidifying humidity_assessment) humidity_urgency
  else
    spray <-
      (if (4 <=? temp_urgency)%Z && Qlt_bool humidity (humidity_max e - 5)
       then can_spray_now e else ret false) ;;
    if spray then
      ControlDecision_init EVAPORATIVE true false false
        (reason_evaporative temp_assessment) temp_urgency
    else if (3 <=? temp_urgency)%Z && (3 <=? humidity_urgency)%Z then
      ControlDecision_init CHILLER true true false
        (reason_moderate_cooling temp_assessment humidity_assessment)
        (Z.max temp_urgency humidity_urgency)
    else
      match temp_rate with
      | Some rate =>
          if Qlt_bool (temp_rate_warning e) rate
             && Qlt_bool humidity (humidity_max e - 3)
          then
            ControlDecision_init EVAPORATIVE true false false
              (reason_predictive rate) 5
          else
            ControlDecision_init IDLE false false false
              (reason_optimal temp_assessment humidity_assessment) 0
      | None =>
          ControlDecision_init IDLE false false false
            (reason_optimal temp_assessment humidity_assessment) 0
      end.

(** [make_decision]: the decision (or the exception raised on the way) and
    the engine with the reading added. *)
Definition make_decision (e : Engine) (temperature humidity : Q)
  : M (Result ControlDecision * Engine) :=
  e1 <- add_reading e temperature humidity ;;
  r1 <- calculate_rate_of_change e1 (temp_history e1) 60 ;;
  match r1 with
  | Raise ex => ret (Raise ex, e1)
  | Ok temp_rate =>
      r2 <- calculate_rate_of_change e1 (humidity_history e1) 60 ;;
      match r2 with
      | Raise ex => ret (Raise ex, e1)
      | Ok humidity_rate =>
          let (temp_assessment, temp_urgency) :=
            assess_temperature e1 temperature temp_rate in
          let (humidity_assessment, humidity_urgency) :=
            assess_humidity e1 humidity humidity_rate in
          let emergency_temp :=
            from_option
              (Settings.emergency_shutdown_temp (safety_params e1)) 15 in
          if Qlt_bool emergency_temp temperature then
            d <- ControlDecision_init EMERGENCY true true false
                   (reason_emergency temperature emergency_temp) 10 ;;
            ret (Ok d, e1)
          else
            d <- decide_rules e1 humidity temp_rate temp_assessment
                   temp_urgency humidity_assessment humidity_urgency ;;
            ret (Ok d, e1)
      end
  end.

(** [self.mode_durations[m] += duration] *)
Definition add_duration (durations : CoolingMode -> Q) (m : CoolingMode)
    (duration : Q) : CoolingMode -> Q :=
  fun m' => if mode_eqb m' m then durations m' + duration else durations m'.

Definition execute_decision (e : Engine) (decision : ControlDecision)
  : M Engine :=
  tracked <-
    (if negb (mode_eqb (current_mode e) (mode decision)) then
       t_read <- time_time ;;
       let duration := t_read - last_mode_change e in
       t_change <- time_time ;;
       ret (add_duration (mode_durations e) (current_mode e) duration,
            t_change)
     else ret (mode_durations e, last_mode_change e)) ;;
  sprayed <-
    (if pump decision then time_time else ret (spray_last_activated e)) ;;
  ret (with_tracking e (mode decision) (Some decision)
         (snd (tracked : (CoolingMode -> Q) * Q)) sprayed
         (S (decisions_made e)) (fst tracked)).

(** [sum(self.mode_durations.values())] *)
Definition sum_durations (durations : CoolingMode -> Q) : Q :=
  fold_left Qplus (map durations all_modes) 0.

Record Statistics : Type := mkStatistics {
  stat_current_mode : CoolingMode;
  stat_decisions_made : nat;
  stat_readings_in_history : nat;
  stat_mode_statistics : list (CoolingMode * (Q * Q)); (* duration, percentage *)
  stat_targets : Q * Q
}.

(** The loop of [get_statistics] over [self.mode_durations.items()]. *)
Fixpoint mode_percentages (e : Engine) (total_time : Q)
    (modes : list CoolingMode) : M (list (CoolingMode * (Q * Q))) :=
  match modes with
  | [] => ret []
  | m :: rest =>
      duration <-
        (if mode_eqb m (current_mode e) then
           now <- time_time ;;
           ret (mode_durations e m + (now - last_mode_change e))
         else ret (mode_durations e m)) ;;
      let percentage :=
        if Qlt_bool 0 total_time then duration / total_time * 100 else 0 in
      tail <- mode_percentages e total_time rest ;;
      ret ((m, (duration, percentage)) :: tail)
  end.

Definition get_statistics (e : Engine) : M Statistics :=
  now <- time_time ;;
  let total_time := sum_durations (mode_durations e)
                    + (now - last_mode_change e) in
  stats <- mode_percentages e total_time all_modes ;;
  ret (mkStatistics (current_mode e) (decisions_made e)
         (length (reading_history e)) stats
         (temp_target e, humidity_target e)).

End ControlEngine.

(** ** Vocabulary of the statements about the actuators *)

Module ActuatorSpec.
Import Actuators.

(** The operations that change an [Actuator]: its three mutators, and the
    assignment [actuator.state = FAULT] that [_set_gpio_state] makes when
    the output write raises. *)
Inductive Operation : Type :=
| do_turn_on
| do_turn_off
| do_emergency_stop
| do_write_failure.

Definition is_write_failure (op : Operation) : bool :=
  match op with
  | do_write_failure => true
  | _ => false
  end.

Definition step (a : Actuator) (op : Operation) (w : World) : Actuator :=
  match op with
  | do_turn_on => snd (fst (turn_on a w))
  | do_turn_off => snd (fst (turn_off a w))
  | do_emergency_stop => emergency_stop a
  | do_write_failure => set_state a FAULT
  end.

(** A history of operations, each made in the world of its own moment. *)
Fixpoint run (a : Actuator) (ops : list (Operation * World)) : Actuator :=
  match ops with
  | [] => a
  | (op, w) :: rest => run (step a op w) rest
  end.

(** The invariant as the data model words it. *)
Definition runtime_start_iff_on (a : Actuator) : Prop :=
  runtime_start a <> None <-> state a = ON.

(** What every operation keeps. *)
Definition runtime_start_tracks_state (a : Actuator) : Prop :=
  (state a = ON -> runtime_start a <> None) /\
  (state a = OFF -> runtime_start a = None).

(** The test of [is_runtime_exceeded] at clock reading [t]. *)
Definition runtime_exceeded_at (a : Actuator) (t : Q) : bool :=
  state_eqb (state a) ON && opt_truthy (runtime_start a)
  && Qle_bool (max_runtime a) (t - from_option (runtime_start a) 0).

(** [w'] is a later point of the run that started in [w]: the same clock and
    the same hardware behaviour, with no fewer clock reads made. *)
Definition later (w w' : World) : Prop :=
  clock w' = clock w /\ (reads w <= reads w')%nat /\
  gpio_present w' = gpio_present w /\
  output_raises w' = output_raises w /\ input_level w' = input_level w.

(** A world in which the clock stands at [t] for every read. *)
Definition world_at (t : Q) (has_gpio : bool) (raises : Z -> bool)
    (input : Z -> option bool) : World :=
  mkWorld (fun _ => t) 0 has_gpio (fun _ => GPIO_HIGH) raises input.

Definition no_raise : Z -> bool := fun _ => false.
Definition always_raise : Z -> bool := fun _ => true.
Definition water_high : Z -> option bool := fun _ => Some GPIO_HIGH.
Definition water_low : Z -> option bool := fun _ => Some GPIO_LOW.

Definition fresh_chiller : Actuator :=
  Actuator_init "Chiller" 27 10 1800 true.

Definition faulted_chiller : Actuator := set_state fresh_chiller FAULT.

(** The bank built from [settings.py] on a board with GPIO. *)
Definition bank (w : World) : ActuatorController :=
  fst (ActuatorController_init Settings.get_config_dict w).

(** [c1] is [c] after some commands: the fields that no method assigns are
    the same. *)
Definition same_board (c c1 : ActuatorController) : Prop :=
  gpio_initialized c1 = gpio_initialized c /\
  safety_config c1 = safety_config c /\
  gpio_config c1 = gpio_config c.

(** A board with GPIO whose water level input reads LOW, 100 s after the
    epoch of the clock. *)
Definition low_water_world : World := world_at 100 true no_raise water_low.

(** The bank of [settings.py] whose chiller was switched on at 100 s, and the
    same board at 2000 s, past the 1800 s the chiller may run, with output
    writes that raise. *)
Definition overrun_bank : ActuatorController :=
  let c := bank (world_at 0 true no_raise water_high) in
  with_chiller c
    (snd (fst (turn_on (chiller c)
                 (world_at 100 true no_raise water_high)))).

Definition failing_board : World := world_at 2000 true always_raise water_high.

End ActuatorSpec.

(** ** Vocabulary of the statements about the control engine *)

Module EngineSpec.
Import ControlEngine.

(** The three deques are appended together and share one [maxlen]: they have
    the same length. *)
Definition histories_aligned (e : Engine) : Prop :=
  length (temp_history e) = length (reading_history e) /\
  length (humidity_history e) = length (reading_history e).

(** The samples whose age at [now] is within [time_window]. *)
Definition in_window (e : Engine) (now time_window : Q)
  : list SensorReading :=
  filter (fun r => Qle_bool (now - timestamp r) time_window)
         (reading_history e).

(** The seconds between the earliest and the latest of some samples. *)
Definition span (l : list SensorReading) : Q :=
  list_max (map timestamp l) - list_min (map timestamp l).

(** The mango configuration of [settings.py], as far as the assessment of a
    temperature and the first rules read it. *)
Definition mango_targets (e : Engine) : Prop :=
  temp_target e = Settings.TARGET_TEMP /\
  temp_min e = Settings.TARGET_TEMP_MIN /\
  temp_max e = Settings.TARGET_TEMP_MAX /\
  humidity_target e = Settings.TARGET_HUMIDITY /\
  humidity_max e = Settings.TARGET_HUMIDITY_MAX /\
  temp_hysteresis e = Settings.CONTROL_TEMP_HYSTERESIS /\
  Settings.emergency_shutdown_temp (safety_params e)
  = Some Settings.SAFETY_EMERGENCY_SHUTDOWN_TEMP.

(** What the accounting law adds up at the instant [now]: the per-mode
    counters and the open interval of the current mode. *)
Definition accounted (e : Engine) (now : Q) : Q :=
  sum_durations (mode_durations e) + (now - last_mode_change e).

(** A run of [execute_decision] calls, each in the world of its moment. *)
Fixpoint execute_all (e : Engine) (calls : list (ControlDecision * World))
  : Engine :=
  match calls with
  | [] => e
  | (d, w) :: rest => execute_all (fst (execute_decision e d w)) rest
  end.

(** The time that passes between the two clock reads of a mode-changing
    [execute_decision]. *)
Definition read_gap (e : Engine) (d : ControlDecision) (w : World) : Q :=
  if mode_eqb (current_mode e) (mode d) then 0
  else clock w (S (reads w)) - clock w (reads w).

Fixpoint total_gap (e : Engine) (calls : list (ControlDecision * World))
  : Q :=
  match calls with
  | [] => 0
  | (d, w) :: rest =>
      read_gap e d w + total_gap (fst (execute_decision e d w)) rest
  end.

(** A world without GPIO whose clock returns the readings of [ticks] in
    turn, and [rest] ever after. *)
Definition ticking (ticks : list Q) (rest : Q) : World :=
  mkWorld (fun n => nth n ticks rest) 0 false (fun _ => GPIO_HIGH)
          (fun _ => false) (fun _ => None).

(** The engine of [settings.py], constructed at clock reading [t0]. *)
Definition mango_engine (t0 : Q) : Engine :=
  fst (HybridControlEngine_init Settings.get_config_dict (ticking [] t0)).

(** A temperature that rises from 10 to 11 degrees in 30 seconds, and the
    rate the engine computes for it at the moment of the second sample. *)
Definition rising_rate : Result (option Q) :=
  fst ((e0 <- HybridControlEngine_init Settings.get_config_dict ;;
        e1 <- add_reading e0 10 80 ;;
        e2 <- add_reading e1 11 80 ;;
        calculate_rate_of_change e2 (temp_history e2) 60)
         (ticking [0; 0; 30] 30)).

(** The same for a temperature that falls from 11 to 10 degrees. *)
Definition falling_rate : Result (option Q) :=
  fst ((e0 <- HybridControlEngine_init Settings.get_config_dict ;;
        e1 <- add_reading e0 11 80 ;;
        e2 <- add_reading e1 10 80 ;;
        calculate_rate_of_change e2 (temp_history e2) 60)
         (ticking [0; 0; 30] 30)).

Definition evaporative_decision : ControlDecision :=
  mkDecision EVAPORATIVE true false false (reason_evaporative above_target)
             6 10.

(** Two samples half a second apart, and the world right after the second
    one was taken. *)
Definition close_samples : Engine * World :=
  (e0 <- HybridControlEngine_init Settings.get_config_dict ;;
   e1 <- add_reading e0 10 80 ;;
   add_reading e1 11 80) (ticking [0; 0; 1 # 2] (1 # 2)).

End EngineSpec.

(** ** actuators.py: the status reports *)

Module ActuatorStatus.
Import Actuators.

(** The dictionary [Actuator.get_status] returns; ['state'] is the name of
    the enumeration member. *)
Record Status : Type := mkStatus {
  status_name : string;
  status_pin : Z;
  status_state : ActuatorState;
  current_runtime : Q;
  status_total_runtime : Q;
  status_cycle_count : nat;
  time_since_change : Q
}.

Definition get_status (a : Actuator) : M Status :=
  current <-
    (if state_eqb (state a) ON && opt_truthy (runtime_start a) then
       now <- time_time ;;
       ret (now - from_option (runtime_start a) 0)
     else ret 0) ;;
  now <- time_time ;;
  ret (mkStatus (name a) (gpio_pin a) (state a) current (total_runtime a)
                (cycle_count a) (now - last_state_change a)).

(** The dictionary [ActuatorController.get_status] returns. *)
Record BankStatus : Type := mkBankStatus {
  bank_emergency_mode : bool;
  bank_water_level_ok : bool;
  bank_gpio_initialized : bool;
  bank_pump : Status;
  bank_chiller : Status;
  bank_dehumidifier : Status
}.

Definition controller_get_status (c : ActuatorController) : M BankStatus :=
  p <- get_status (pump c) ;;
  ch <- get_status (chiller c) ;;
  d <- get_status (dehumidifier c) ;;
  ret (mkBankStatus (emergency_mode c) (water_level_ok c)
                    (gpio_initialized c) p ch d).

End ActuatorStatus.

(** ** control_engine.py: errors, targets and presets *)

Module EngineTargets.
Import ControlEngine.

Definition calculate_temp_error (e : Engine) (temperature : Q) : Q :=
  let error := temperature - temp_target e in
  if Qlt_bool (Qabs error) (temp_hysteresis e) then 0 else error.

Definition calculate_humidity_error (e : Engine) (humidity : Q) : Q :=
  let error := humidity - humidity_target e in
  if Qlt_bool (Qabs error) (humidity_hysteresis e) then 0 else error.



(** One entry of the [presets] dictionary. *)
Record Preset : Type := mkPreset {
  preset_temp_target : option Q;
  preset_humidity_target : option Q;
  preset_description : option string
}.

(** [settings.PRESETS], in the order of the literal. *)
Definition PRESETS : list (string * Preset) :=
  [("mango"%string,
    mkPreset (Some 11) (Some (875 # 10))
      (Some "Mango optimal storage: 50-54°F (10-12.2°C), 85-90% RH"%string));
   ("leafy_greens"%string,
    mkPreset (Some 4) (Some 95) (Some "Leafy greens storage"%string));
   ("berries"%string,
    mkPreset (Some 2) (Some 90) (Some "Berries storage"%string));
   ("tomatoes"%string,
    mkPreset (Some 13) (Some 85) (Some "Tomatoes storage"%string));
   ("citrus"%string,
    mkPreset (Some 8) (Some 85) (Some "Citrus storage"%string))].



(** The sum of the percentages a statistics report lists. *)
Definition total_percentage (stats : list (CoolingMode * (Q * Q))) : Q :=
  fold_right (fun entry acc => snd (snd entry) + acc) 0 stats.

End EngineTargets.

(** ** sensors.py: checksum, conversion and reading history *)

Module Sensors.

(** One turn of the inner loop of [_calculate_crc]. *)
Definition crc_shift (crc : Z) : Z :=
  if Z.eqb (Z.land crc 128) 0 then Z.shiftl crc 1
  else Z.lxor (Z.shiftl crc 1) 49.

(** One turn of the outer loop: the byte is folded in, shifted out in eight
    turns, and the result cut to eight bits. *)
Definition crc_byte (crc byte : Z) : Z :=
  Z.land (Nat.iter 8 crc_shift (Z.lxor crc byte)) 255.

Definition _calculate_crc (data : list Z) : Z :=
  fold_left crc_byte data 255%Z.

Definition is_byte (b : Z) : Prop := (0 <= b < 256)%Z.

Definition all_bytes : list Z := map Z.of_nat (seq 0 256).

(** The attributes of [SHT35Sensor] that conversion and validation use. *)
Record Sensor : Type := mkSensor {
  temp_offset : Q;
  humidity_offset : Q;
  temp_history : list Q;
  humidity_history : list Q;
  max_history : nat
}.

Definition _convert_temperature (s : Sensor) (raw : Z) : Q :=
  let temp_celsius := -45 + 175 * inject_Z raw / 65535 in
  temp_celsius + temp_offset s.

(** [list.append] followed by [pop(0)] when the list has outgrown
    [max_history]. *)
Definition append_bounded (maxlen : nat) (l : list Q) (x : Q) : list Q :=
  let l' := l ++ [x] in
  if (maxlen <? length l')%nat then tl l' else l'.

Definition _update_history (s : Sensor) (temp humidity : Q) : Sensor :=
  mkSensor (temp_offset s) (humidity_offset s)
           (append_bounded (max_history s) (temp_history s) temp)
           (append_bounded (max_history s) (humidity_history s) humidity)
           (max_history s).

Definition _validate_reading (s : Sensor) (temp humidity : Q) : bool :=
  if negb (Qle_bool (-40) temp && Qle_bool temp 125) then false
  else if negb (Qle_bool 0 humidity && Qle_bool humidity 100) then false
  else if
    match temp_history s with
    | [] => false
    | _ => Qlt_bool 10 (Qabs (temp - last (temp_history s) 0))
    end
  then false
  else if
    match humidity_history s with
    | [] => false
    | _ => Qlt_bool 20 (Qabs (humidity - last (humidity_history s) 0))
    end
  then false
  else true.

(** Neighbouring entries of a history are at most [bound] apart. *)
Fixpoint smooth (bound : Q) (l : list Q) : Prop :=
  match l with
  | x :: ((y :: _) as rest) => Qabs (y - x) <= bound /\ smooth bound rest
  | _ => True
  end.

End Sensors.

(** ** main.py: applying a decision *)

Module ControlLoop.

(** The parts of [ClimateControlSystem] that [_make_control_decision]
    touches; [manual_override] is [self.dashboard and
    self.dashboard.manual_override]. *)
Record ClimateControlSystem : Type := mkSystem {
  control_engine : ControlEngine.Engine;
  actuator_controller : Actuators.ActuatorController;
  manual_override : bool;
  error_count : nat
}.

(** [actuator.state.name == 'ON'] *)
Definition is_on (a : Actuators.Actuator) : bool :=
  Actuators.state_eqb (Actuators.state a) Actuators.ON.

(** [if wanted != is_on: setter(wanted)] *)
Definition command_if_differs (c : Actuators.ActuatorController)
    (get : Actuators.ActuatorController -> Actuators.Actuator)
    (setter : Actuators.ActuatorController -> bool ->
              M (bool * Actuators.ActuatorController))
    (wanted : bool) : M Actuators.ActuatorController :=
  if negb (Bool.eqb wanted (is_on (get c))) then
    r <- setter c wanted ;;
    ret (snd (r : bool * Actuators.ActuatorController))
  else ret c.

(** [_make_control_decision].  Of [data_logger.log_control_decision] the
    clock read for the row's timestamp is kept; the row itself is not
    modelled, and the logger catches its own database errors.  An exception
    of [make_decision] is caught and counted, as the method's [except]
    clause does. *)
Definition _make_control_decision (sys : ClimateControlSystem)
    (temperature humidity : Q) : M ClimateControlSystem :=
  r <- ControlEngine.make_decision (control_engine sys) temperature
         humidity ;;
  match (r : ControlEngine.Result ControlEngine.ControlDecision
             * ControlEngine.Engine) with
  | (ControlEngine.Raise _, e1) =>
      ret (mkSystem e1 (actuator_controller sys) (manual_override sys)
                    (S (error_count sys)))
  | (ControlEngine.Ok decision, e1) =>
      logged_at <- time_time ;;
      if manual_override sys then
        e2 <- ControlEngine.execute_decision e1 decision ;;
        ret (mkSystem e2 (actuator_controller sys) (manual_override sys)
                      (error_count sys))
      else
        c1 <- command_if_differs (actuator_controller sys)
                Actuators.pump Actuators.set_pump
                (ControlEngine.pump decision) ;;
        c2 <- command_if_differs c1 Actuators.chiller Actuators.set_chiller
                (ControlEngine.chiller decision) ;;
        c3 <- command_if_differs c2 Actuators.dehumidifier
                Actuators.set_dehumidifier
                (ControlEngine.dehumidifier decision) ;;
        e2 <- ControlEngine.execute_decision e1 decision ;;
        ret (mkSystem e2 c3 (manual_override sys) (error_count sys))
  end.

End ControlLoop.

(** ** More vocabulary for the actuators *)

Module ActuatorScenarios.
Import Actuators ActuatorSpec.

(** The chiller of [settings.py], switched on at 100 s. *)
Definition running_chiller : Actuator :=
  snd (fst (turn_on fresh_chiller (world_at 100 true no_raise water_high))).

(** The bank built from [settings.py] on a machine without the GPIO
    library: simulation mode. *)
Definition simulated_bank : ActuatorController :=
  bank (world_at 0 false no_raise water_low).

(** How many [turn_on] calls a history holds. *)
Fixpoint count_turn_on (ops : list (Operation * World)) : nat :=
  match ops with
  | [] => 0
  | (do_turn_on, _) :: rest => S (count_turn_on rest)
  | _ :: rest => count_turn_on rest
  end.

End ActuatorScenarios.

(** ** More vocabulary for the control engine *)

Module EngineScenarios.
Import ControlEngine EngineSpec.

(** The actuators each mode stands for, as the comments of [CoolingMode] and
    the decisions of [make_decision] have them. *)
Definition flags_of (m : CoolingMode) : bool * bool * bool :=
  match m with
  | IDLE => (false, false, false)
  | EVAPORATIVE => (true, false, false)
  | CHILLER => (true, true, false)
  | DEHUMIDIFY => (false, false, true)
  | COOL_AND_DEHUMIDIFY => (false, true, true)
  | EMERGENCY => (true, true, false)
  end.

(** Two samples 30 seconds apart, 10 then 11 degrees, and the world right
    after the second one was taken. *)
Definition rising_samples : Engine * World :=
  (e0 <- HybridControlEngine_init Settings.get_config_dict ;;
   e1 <- add_reading e0 10 80 ;;
   add_reading e1 11 80) (ticking [0; 0; 30] 30).

End EngineScenarios.

(** ** Vocabulary for the control loop *)

Module LoopScenarios.
Import ControlLoop.

(** A freshly built engine beside the bank whose chiller has run past its
    limit; no manual override, no errors counted yet. *)
Definition overrun_system : ClimateControlSystem :=
  mkSystem (EngineSpec.mango_engine 0) ActuatorSpec.overrun_bank false 0.

End LoopScenarios.

(** * Boolean comparisons on rationals *)

Lemma Qlt_bool_iff (x y : Q) : Qlt_bool x y = true <-> x < y.
Proof.
  unfold Qlt_bool. rewrite negb_true_iff. split; intro H.
  - apply Qnot_le_lt. intro Hle. apply Qle_bool_iff in Hle. congruence.
  - destruct (Qle_bool y x) eqn:E; [ | reflexivity ].
    apply Qle_bool_iff in E. exfalso. exact (Qlt_not_le _ _ H E).
Qed.

Lemma Qlt_bool_false_iff (x y : Q) : Qlt_bool x y = false <-> y <= x.
Proof.
  unfold Qlt_bool. rewrite negb_false_iff. apply Qle_bool_iff.
Qed.

Lemma Qle_bool_false_iff (x y : Q) : Qle_bool x y = false <-> y < x.
Proof.
  rewrite <- Qlt_bool_iff. unfold Qlt_bool.
  destruct (Qle_bool x y); simpl; intuition congruence.
Qed.

(** * Properties of the actuators *)

Module ActuatorTheory.
Import Actuators ActuatorSpec.

Lemma state_eqb_eq (s1 s2 : ActuatorState) :
  state_eqb s1 s2 = true <-> s1 = s2.
Proof. destruct s1, s2; simpl; split; congruence. Qed.

Lemma state_eqb_neq (s1 s2 : ActuatorState) :
  state_eqb s1 s2 = false <-> s1 <> s2.
Proof. destruct s1, s2; simpl; split; congruence. Qed.

(** C2.  [turn_on] is a successful no-op on an actuator that is ON.  On any
    other actuator the gate decides, on the first clock read [now]: with
    [now - last_state_change < min_cycle_time] the call returns [False] and
    the actuator is unchanged in every field; with
    [now - last_state_change >= min_cycle_time] it returns [True], the state
    is ON, [last_state_change] and [runtime_start] are the readings
    [time.time()] returns at their assignments, [cycle_count] has grown by
    exactly one and no other field has changed. *)
Theorem turn_on_interlock (a : Actuator) (w : World) :
  (state a = ON -> turn_on a w = ((true, a), w)) /\
  (state a <> ON ->
   clock w (reads w) - last_state_change a < min_cycle_time a ->
   fst (turn_on a w) = (false, a)) /\
  (state a <> ON ->
   min_cycle_time a <= clock w (reads w) - last_state_change a ->
   exists a',
     fst (turn_on a w) = (true, a') /\
     state a' = ON /\
     last_state_change a' = clock w (S (reads w)) /\
     runtime_start a' = Some (clock w (S (S (reads w)))) /\
     cycle_count a' = S (cycle_count a) /\
     total_runtime a' = total_runtime a /\
     name a' = name a /\ gpio_pin a' = gpio_pin a /\
     min_cycle_time a' = min_cycle_time a /\
     max_runtime a' = max_runtime a /\ active_low a' = active_low a).
Proof.
  unfold turn_on, can_change_state, bind, ret, time_time.
  repeat split.
  - intros Hon. rewrite (proj2 (state_eqb_eq _ _) Hon). reflexivity.
  - intros Hoff Hgate. rewrite (proj2 (state_eqb_neq _ _) Hoff).
    apply Qle_bool_false_iff in Hgate. simpl. rewrite Hgate. reflexivity.
  - intros Hoff Hgate. rewrite (proj2 (state_eqb_neq _ _) Hoff).
    apply Qle_bool_iff in Hgate. simpl. rewrite Hgate. simpl.
    eexists. repeat split.
Qed.

(** The interlock on the chiller of [settings.py]: refused 4 s after the last
    change, accepted 10 s after it. *)
Lemma turn_on_interlock_witness :
  fst (turn_on fresh_chiller (world_at 4 true no_raise water_high))
  = (false, fresh_chiller) /\
  exists a',
    fst (turn_on fresh_chiller (world_at 10 true no_raise water_high))
    = (true, a') /\ state a' = ON.
Proof.
  split.
  - apply (turn_on_interlock fresh_chiller
             (world_at 4 true no_raise water_high)).
    + discriminate.
    + reflexivity.
  - destruct (turn_on_interlock fresh_chiller
                (world_at 10 true no_raise water_high)) as (_ & _ & H).
    destruct H as (a' & Hr & Hs & _).
    + discriminate.
    + vm_compute. discriminate.
    + exists a'. split; assumption.
Defined.

(** C9, as the code has it.  Nothing in [turn_on] or [turn_off] looks at
    FAULT: on an actuator in FAULT, [turn_off] always ends in OFF, and
    [turn_on] ends in ON as soon as the cycle-time gate passes; only a
    refusal by that gate leaves the actuator as it was. *)
Theorem fault_left_by_commands (a : Actuator) (w : World) :
  state a = FAULT ->
  (fst (fst (turn_off a w)) = true /\ state (snd (fst (turn_off a w))) = OFF) /\
  (min_cycle_time a <= clock w (reads w) - last_state_change a ->
   fst (fst (turn_on a w)) = true /\ state (snd (fst (turn_on a w))) = ON) /\
  (clock w (reads w) - last_state_change a < min_cycle_time a ->
   fst (fst (turn_on a w)) = false /\ snd (fst (turn_on a w)) = a).
Proof.
  intros Hf. split; [ | split ].
  - unfold turn_off, bind, ret, time_time. rewrite Hf. split; reflexivity.
  - intros Hgate. apply Qle_bool_iff in Hgate.
    unfold turn_on, can_change_state, bind, ret, time_time.
    rewrite Hf. simpl. rewrite Hgate. split; reflexivity.
  - intros Hgate. apply Qle_bool_false_iff in Hgate.
    unfold turn_on, can_change_state, bind, ret, time_time.
    rewrite Hf. simpl. rewrite Hgate. split; reflexivity.
Qed.

Lemma fault_left_by_commands_witness :
  state (snd (fst (turn_off faulted_chiller
                     (world_at 100 true no_raise water_high)))) = OFF /\
  state (snd (fst (turn_on faulted_chiller
                     (world_at 100 true no_raise water_high)))) = ON.
Proof.
  destruct (fault_left_by_commands faulted_chiller
              (world_at 100 true no_raise water_high) eq_refl)
    as ((_ & Hoff) & Hon & _).
  split.
  - exact Hoff.
  - apply Hon. vm_compute. discriminate.
Defined.

(** C9 as stated fails: a chiller in FAULT is OFF after [turn_off] and ON
    after [turn_on], with no reset in between. *)
Lemma fault_is_not_terminal :
  state faulted_chiller = FAULT /\
  state (snd (fst (turn_off faulted_chiller
                     (world_at 100 true no_raise water_high)))) <> FAULT /\
  state (snd (fst (turn_on faulted_chiller
                     (world_at 100 true no_raise water_high)))) <> FAULT.
Proof. vm_compute. repeat split; discriminate. Qed.

(** ** The invariant on [runtime_start] *)

Lemma iff_on_tracks (a : Actuator) :
  runtime_start_iff_on a -> runtime_start_tracks_state a.
Proof.
  unfold runtime_start_iff_on, runtime_start_tracks_state.
  intros [Hl Hr]. split.
  - exact Hr.
  - intros Hoff. destruct (runtime_start a) as [t|]; [ | reflexivity ].
    assert (Hon : state a = ON) by (apply Hl; discriminate). congruence.
Qed.

Lemma step_keeps_tracking (a : Actuator) (op : Operation) (w : World) :
  runtime_start_tracks_state a -> runtime_start_tracks_state (step a op w).
Proof.
  unfold runtime_start_tracks_state. intros [Hon Hoff].
  destruct op; simpl.
  - unfold turn_on, can_change_state, bind, ret, time_time.
    destruct (state_eqb (state a) ON) eqn:Es; simpl; [ tauto | ].
    destruct (Qle_bool _ _); simpl; [ | tauto ].
    split; intros; congruence.
  - unfold turn_off, bind, ret, time_time.
    destruct (state_eqb (state a) OFF) eqn:Es; simpl; [ tauto | ].
    destruct (state_eqb (state a) ON && opt_truthy (runtime_start a));
      simpl; split; intros; congruence.
  - split; intros; congruence.
  - split; intros; discriminate.
Qed.

Lemma step_keeps_iff_on (a : Actuator) (op : Operation) (w : World) :
  is_write_failure op = false ->
  runtime_start_iff_on a -> runtime_start_iff_on (step a op w).
Proof.
  unfold runtime_start_iff_on. intros Hop Ha.
  destruct op; simpl; try discriminate.
  - unfold turn_on, can_change_state, bind, ret, time_time.
    destruct (state_eqb (state a) ON) eqn:Es; simpl; [ exact Ha | ].
    destruct (Qle_bool _ _); simpl; [ | exact Ha ].
    split; intros; congruence.
  - unfold turn_off, bind, ret, time_time.
    destruct (state_eqb (state a) OFF) eqn:Es; simpl; [ exact Ha | ].
    destruct (state_eqb (state a) ON && opt_truthy (runtime_start a));
      simpl; split; intros; congruence.
  - split; intros; congruence.
Qed.

Lemma run_app (a : Actuator) (ops more : list (Operation * World)) :
  run a (ops ++ more) = run (run a ops) more.
Proof.
  revert a. induction ops as [| [op w] rest IH]; intros a; simpl.
  - reflexivity.
  - apply IH.
Qed.

(** An operation that leaves the actuator in FAULT has not touched
    [runtime_start]; it is the write failure, unless the actuator was in
    FAULT before it. *)
Lemma step_into_fault (a : Actuator) (op : Operation) (w : World) :
  state (step a op w) = FAULT ->
  runtime_start (step a op w) = runtime_start a /\
  (state a = FAULT \/ op = do_write_failure).
Proof.
  destruct op; simpl.
  - unfold turn_on, can_change_state, bind, ret, time_time.
    destruct (state_eqb (state a) ON) eqn:Es; simpl; [ tauto | ].
    destruct (Qle_bool _ _); simpl; [ discriminate | tauto ].
  - unfold turn_off, bind, ret, time_time.
    destruct (state_eqb (state a) OFF) eqn:Es; simpl; [ tauto | ].
    destruct (state_eqb (state a) ON && opt_truthy (runtime_start a));
      simpl; discriminate.
  - discriminate.
  - intros _. split; [ reflexivity | right; reflexivity ].
Qed.

(** A history that ends in FAULT holds the write failure that led there, and
    [runtime_start] is what it was just before that failure. *)
Lemma fault_since_write_failure (a : Actuator)
    (ops : list (Operation * World)) :
  state a <> FAULT -> state (run a ops) = FAULT ->
  exists pre w post,
    ops = pre ++ (do_write_failure, w) :: post /\
    state (run a pre) <> FAULT /\
    runtime_start (run a ops) = runtime_start (run a pre).
Proof.
  intros Ha. induction ops as [| [op w] ops IH] using rev_ind.
  - intros Hf. simpl in Hf. contradiction.
  - rewrite run_app. simpl. intros Hf.
    destruct (step_into_fault (run a ops) op w Hf) as [Hrs Hwhy].
    destruct (state (run a ops)) eqn:Es.
    + destruct Hwhy as [Hc | ->]; [ discriminate | ].
      exists ops, w, []. rewrite Es.
      split; [ reflexivity | split; [ discriminate | exact Hrs ] ].
    + destruct Hwhy as [Hc | ->]; [ discriminate | ].
      exists ops, w, []. rewrite Es.
      split; [ reflexivity | split; [ discriminate | exact Hrs ] ].
    + destruct (IH eq_refl) as (pre & w0 & post & Hops & Hpre & Hkeep).
      exists pre, w0, (post ++ [(op, w)]). split; [ | split ].
      * rewrite Hops, <- app_assoc. reflexivity.
      * exact Hpre.
      * rewrite Hrs. exact Hkeep.
Qed.

(** C5, as the code has it.  From an actuator that satisfies the invariant
    (a new one does), every history of [turn_on], [turn_off],
    [emergency_stop] and output-write failures keeps [runtime_start] set
    while the state is ON and cleared while it is OFF, and a history without
    write failures keeps the invariant as worded.  A write failure sets the
    state to FAULT and leaves [runtime_start] as it was, so set when it
    strikes an actuator that is ON; and whenever a history ends in FAULT,
    [runtime_start] still is what it was just before the write failure that
    led there. *)
Theorem runtime_start_invariant (a : Actuator)
    (ops : list (Operation * World)) :
  runtime_start_iff_on a ->
  runtime_start_tracks_state (run a ops) /\
  (forallb (fun o => negb (is_write_failure (fst o))) ops = true ->
   runtime_start_iff_on (run a ops)) /\
  (forall w,
     state (run a (ops ++ [(do_write_failure, w)])) = FAULT /\
     runtime_start (run a (ops ++ [(do_write_failure, w)]))
     = runtime_start (run a ops) /\
     (state (run a ops) = ON ->
      runtime_start (run a (ops ++ [(do_write_failure, w)])) <> None)) /\
  (state a <> FAULT -> state (run a ops) = FAULT ->
   exists pre w post,
     ops = pre ++ (do_write_failure, w) :: post /\
     state (run a pre) <> FAULT /\
     runtime_start (run a ops) = runtime_start (run a pre) /\
     (state (run a pre) = ON -> runtime_start (run a ops) <> None) /\
     (state (run a pre) = OFF -> runtime_start (run a ops) = None)).
Proof.
  intros Ha.
  assert (Htrack : forall l, runtime_start_tracks_state (run a l)).
  { apply iff_on_tracks in Ha. intros l. revert a Ha.
    induction l as [| [op w] rest IH]; intros a Ha; simpl.
    - exact Ha.
    - apply IH. apply step_keeps_tracking. exact Ha. }
  split; [ apply Htrack | ]. split; [ | split ].
  - clear Htrack. revert a Ha.
    induction ops as [| [op w] rest IH]; intros a Ha Hops; simpl in *.
    + exact Ha.
    + apply andb_true_iff in Hops. destruct Hops as [Hop Hrest].
      apply IH; [ | exact Hrest ].
      apply step_keeps_iff_on; [ | exact Ha ].
      apply negb_true_iff. exact Hop.
  - intros w. rewrite run_app. simpl.
    split; [ reflexivity | ]. split; [ reflexivity | ].
    apply (Htrack ops).
  - intros Hnf Hf.
    destruct (fault_since_write_failure a ops Hnf Hf)
      as (pre & w & post & Hops & Hpre & Hkeep).
    exists pre, w, post. split; [ exact Hops | ]. split; [ exact Hpre | ].
    split; [ exact Hkeep | ]. rewrite Hkeep. apply (Htrack pre).
Qed.

Lemma fresh_chiller_iff_on : runtime_start_iff_on fresh_chiller.
Proof. split; simpl; intros; congruence. Qed.

Lemma runtime_start_invariant_witness :
  runtime_start_tracks_state
    (run fresh_chiller
       [(do_turn_on, world_at 100 true always_raise water_high)]) /\
  state (run fresh_chiller
           [(do_turn_on, world_at 100 true always_raise water_high);
            (do_write_failure, world_at 100 true always_raise water_high)])
  = FAULT /\
  runtime_start
    (run fresh_chiller
       [(do_turn_on, world_at 100 true always_raise water_high);
        (do_write_failure, world_at 100 true always_raise water_high)])
  <> None.
Proof.
  destruct (runtime_start_invariant fresh_chiller
              [(do_turn_on, world_at 100 true always_raise water_high)]
              fresh_chiller_iff_on)
    as (Htrack & _ & Hfail & _).
  destruct (Hfail (world_at 100 true always_raise water_high))
    as (Hstate & _ & Hset).
  split; [ exact Htrack | ]. split; [ exact Hstate | ].
  apply Hset. reflexivity.
Defined.

(** C5 as stated fails: after [turn_on] and a failed output write the state
    is FAULT and [runtime_start] is still set. *)
Lemma fault_keeps_runtime_start :
  ~ runtime_start_iff_on
      (run fresh_chiller
         [(do_turn_on, world_at 100 true always_raise water_high);
          (do_write_failure, world_at 100 true always_raise water_high)]).
Proof.
  unfold runtime_start_iff_on. simpl. intros [H _].
  assert (Hon : FAULT = ON) by (apply H; discriminate).
  discriminate.
Qed.

(** That history is what [set_chiller(True)] does on a board whose output
    write raises: [turn_on] succeeds, then [_set_gpio_state] marks the
    fault. *)
Lemma set_chiller_write_failure (c : ActuatorController) (w : World) :
  gpio_initialized c = true ->
  output_raises w (gpio_pin (chiller c)) = true ->
  fst (fst (turn_on (chiller c) w)) = true ->
  chiller (snd (fst (set_chiller c true w)))
  = step (step (chiller c) do_turn_on w) do_write_failure w.
Proof.
  intros Hinit Hraise Hok.
  unfold set_chiller, command, bind, ret. simpl.
  revert Hok. unfold turn_on, can_change_state, bind, ret, time_time.
  destruct (state_eqb (state (chiller c)) ON); simpl.
  - intros _. unfold _set_gpio_state, GPIO_output, bind, ret.
    rewrite Hinit. simpl. rewrite Hraise. reflexivity.
  - destruct (Qle_bool _ _); simpl; [ | discriminate ].
    intros _. unfold _set_gpio_state, GPIO_output, bind, ret.
    rewrite Hinit. simpl. rewrite Hraise. reflexivity.
Qed.

(** ** The water level gate *)

Lemma check_water_level_cached (c : ActuatorController) (cached : bool)
    (w : World) :
  fst (fst (check_water_level (with_water_level_ok c cached) w))
  = fst (fst (check_water_level c w)).
Proof.
  unfold check_water_level, GPIO_input, bind, ret. simpl.
  destruct (gpio_initialized c); simpl; [ | reflexivity ].
  destruct (from_option _ _); simpl; [ | reflexivity ].
  destruct (input_level w _); reflexivity.
Qed.

Lemma check_water_level_keeps (c : ActuatorController) (w : World) :
  snd (check_water_level c w) = w /\
  pump (snd (fst (check_water_level c w))) = pump c /\
  chiller (snd (fst (check_water_level c w))) = chiller c /\
  dehumidifier (snd (fst (check_water_level c w))) = dehumidifier c /\
  gpio_initialized (snd (fst (check_water_level c w))) = gpio_initialized c /\
  gpio_config (snd (fst (check_water_level c w))) = gpio_config c /\
  safety_config (snd (fst (check_water_level c w))) = safety_config c.
Proof.
  unfold check_water_level, GPIO_input, bind, ret.
  destruct (gpio_initialized c) eqn:Ei; simpl; [ | rewrite Ei; tauto ].
  destruct (from_option _ _); simpl; [ | rewrite Ei; tauto ].
  destruct (input_level w _); simpl; rewrite ?Ei; tauto.
Qed.

(** C3.  Whenever [check_water_level] fails, [set_pump(True)] returns
    [False]; the pump actuator is the same record (state, runtime_start,
    last_state_change, total_runtime, cycle_count), no pin is driven and the
    world is untouched.  This holds for either value of the cached
    [water_level_ok]: the gate reads the input afresh and never consults the
    cache. *)
Theorem set_pump_refused_on_low_water (c : ActuatorController) (w : World) :
  fst (fst (check_water_level c w)) = false ->
  forall cached : bool,
    fst (fst (set_pump (with_water_level_ok c cached) true w)) = false /\
    pump (snd (fst (set_pump (with_water_level_ok c cached) true w)))
    = pump c /\
    pin_level (snd (set_pump (with_water_level_ok c cached) true w))
    = pin_level w /\
    snd (set_pump (with_water_level_ok c cached) true w) = w.
Proof.
  intros Hlow cached.
  pose proof (check_water_level_cached c cached w) as Hc.
  pose proof (check_water_level_keeps (with_water_level_ok c cached) w)
    as (Hw & Hp & _).
  unfold set_pump, bind.
  destruct (check_water_level (with_water_level_ok c cached) w)
    as [[ok c1] w1].
  simpl in *. rewrite Hlow in Hc. subst ok w1. simpl.
  repeat split. exact Hp.
Qed.

Lemma set_pump_refused_on_low_water_witness :
  fst (fst (set_pump (with_water_level_ok (bank low_water_world) true) true
              low_water_world)) = false /\
  pump (snd (fst (set_pump (with_water_level_ok (bank low_water_world) true)
                    true low_water_world)))
  = pump (bank low_water_world).
Proof.
  destruct (set_pump_refused_on_low_water (bank low_water_world)
              low_water_world eq_refl true) as (Hr & Hp & _).
  split; [ exact Hr | exact Hp ].
Defined.

(** ** The safety sweep *)

Lemma later_refl (w : World) : later w w.
Proof. unfold later. repeat split; auto. Qed.

Lemma later_trans (w1 w2 w3 : World) :
  later w1 w2 -> later w2 w3 -> later w1 w3.
Proof.
  unfold later. intros (A1 & A2 & A3 & A4 & A5) (B1 & B2 & B3 & B4 & B5).
  repeat split; try congruence. lia.
Qed.

Lemma is_runtime_exceeded_at (a : Actuator) (w : World) :
  fst (is_runtime_exceeded a w) = runtime_exceeded_at a (clock w (reads w)) /\
  later w (snd (is_runtime_exceeded a w)).
Proof.
  unfold is_runtime_exceeded, runtime_exceeded_at, bind, ret, time_time, later.
  destruct (state_eqb (state a) ON && opt_truthy (runtime_start a)); simpl;
    repeat split; auto.
Qed.

Lemma command_off_later (c : ActuatorController) (a : Actuator) (w : World) :
  later w (snd (command c a false w)).
Proof.
  unfold command, turn_off, _set_gpio_state, GPIO_output, bind, ret,
    time_time, later.
  destruct (state_eqb (state a) OFF); simpl;
    [ | destruct (state_eqb (state a) ON && opt_truthy (runtime_start a));
        simpl ];
    destruct (gpio_initialized c); simpl;
    try destruct (output_raises w _); simpl; repeat split; auto.
Qed.

Lemma command_off_not_on (c : ActuatorController) (a : Actuator) (w : World) :
  state (snd (fst (command c a false w))) <> ON.
Proof.
  unfold command, turn_off, _set_gpio_state, GPIO_output, bind, ret,
    time_time.
  destruct (state_eqb (state a) OFF) eqn:Es; simpl;
    [ apply state_eqb_eq in Es
    | destruct (state_eqb (state a) ON && opt_truthy (runtime_start a));
      simpl ];
    destruct (gpio_initialized c); simpl;
    try destruct (output_raises w _); simpl; congruence.
Qed.

Lemma command_same_board (c1 c2 : ActuatorController) (a : Actuator)
    (on : bool) (w : World) :
  gpio_initialized c1 = gpio_initialized c2 ->
  command c1 a on w = command c2 a on w.
Proof.
  intros H. unfold command, _set_gpio_state. rewrite H. reflexivity.
Qed.

Lemma set_pump_off (c : ActuatorController) (w : World) :
  set_pump c false w =
  ((fst (fst (command c (pump c) false w)),
    with_pump c (snd (fst (command c (pump c) false w)))),
   snd (command c (pump c) false w)).
Proof.
  unfold set_pump, bind, ret. cbv beta iota delta [andb negb].
  destruct (command c (pump c) false w) as [[s a] w']. reflexivity.
Qed.

Lemma set_chiller_off (c : ActuatorController) (w : World) :
  set_chiller c false w =
  ((fst (fst (command c (chiller c) false w)),
    with_chiller c (snd (fst (command c (chiller c) false w)))),
   snd (command c (chiller c) false w)).
Proof.
  unfold set_chiller, bind, ret.
  destruct (command c (chiller c) false w) as [[s a] w']. reflexivity.
Qed.

Lemma set_dehumidifier_off (c : ActuatorController) (w : World) :
  set_dehumidifier c false w =
  ((fst (fst (command c (dehumidifier c) false w)),
    with_dehumidifier c (snd (fst (command c (dehumidifier c) false w)))),
   snd (command c (dehumidifier c) false w)).
Proof.
  unfold set_dehumidifier, bind, ret.
  destruct (command c (dehumidifier c) false w) as [[s a] w']. reflexivity.
Qed.

Lemma check_water_level_same_board (c1 c2 : ActuatorController) (w : World) :
  gpio_initialized c1 = gpio_initialized c2 ->
  safety_config c1 = safety_config c2 ->
  gpio_config c1 = gpio_config c2 ->
  fst (fst (check_water_level c1 w)) = fst (fst (check_water_level c2 w)).
Proof.
  intros H1 H2 H3. unfold check_water_level, GPIO_input, bind, ret.
  rewrite H1, H2, H3.
  destruct (gpio_initialized c2); simpl; [ | reflexivity ].
  destruct (from_option _ _); simpl; [ | reflexivity ].
  destruct (input_level w _); reflexivity.
Qed.

(** Forcing an actuator off goes through [turn_off]: the result is what
    [turn_off] leaves, marked FAULT when the output write raises. *)
Lemma command_off_is_turn_off (c : ActuatorController) (a : Actuator)
    (w : World) :
  (gpio_initialized c = false \/ output_raises w (gpio_pin a) = false ->
   snd (fst (command c a false w)) = snd (fst (turn_off a w))) /\
  (gpio_initialized c = true -> output_raises w (gpio_pin a) = true ->
   snd (fst (command c a false w))
   = set_state (snd (fst (turn_off a w))) FAULT).
Proof.
  unfold command, turn_off, _set_gpio_state, GPIO_output, bind, ret,
    time_time.
  destruct (state_eqb (state a) OFF); simpl;
    [ | destruct (state_eqb (state a) ON && opt_truthy (runtime_start a));
        simpl ];
    destruct (gpio_initialized c); simpl;
    destruct (output_raises w (gpio_pin a)); simpl;
    split; intros; try reflexivity; try discriminate;
    intuition discriminate.
Qed.

Lemma sweep_entry_run (get : ActuatorController -> Actuator)
    (force_off : ActuatorController -> bool -> M (bool * ActuatorController))
    (ok : bool) (c : ActuatorController) (w : World) :
  sweep_entry get force_off (ok, c) w =
  if fst (is_runtime_exceeded (get c) w)
  then ((false,
         snd (fst (force_off c false (snd (is_runtime_exceeded (get c) w))))),
        snd (force_off c false (snd (is_runtime_exceeded (get c) w))))
  else ((ok, c), snd (is_runtime_exceeded (get c) w)).
Proof.
  unfold sweep_entry, bind, ret.
  destruct (is_runtime_exceeded (get c) w) as [e w1]. simpl.
  destruct e; [ | reflexivity ].
  destruct (force_off c false w1) as [[s c1] w2]. reflexivity.
Qed.

Lemma sweep_pump (ok : bool) (c : ActuatorController) (w : World) :
  exists c1 w1,
    sweep_entry pump set_pump (ok, c) w
    = ((ok && negb (fst (is_runtime_exceeded (pump c) w)), c1), w1) /\
    later w w1 /\ same_board c c1 /\
    chiller c1 = chiller c /\ dehumidifier c1 = dehumidifier c /\
    pump c1 =
      if fst (is_runtime_exceeded (pump c) w)
      then snd (fst (command c (pump c) false
                       (snd (is_runtime_exceeded (pump c) w))))
      else pump c.
Proof.
  rewrite sweep_entry_run.
  destruct (is_runtime_exceeded_at (pump c) w) as [_ L].
  destruct (fst (is_runtime_exceeded (pump c) w)).
  - rewrite set_pump_off. cbn [fst snd]. rewrite andb_false_r.
    do 2 eexists. split; [ reflexivity | ].
    split; [ | unfold same_board; simpl; tauto ].
    eapply later_trans; [ exact L | apply command_off_later ].
  - rewrite andb_true_r. do 2 eexists. split; [ reflexivity | ].
    unfold same_board; tauto.
Qed.

Lemma sweep_chiller (ok : bool) (c : ActuatorController) (w : World) :
  exists c1 w1,
    sweep_entry chiller set_chiller (ok, c) w
    = ((ok && negb (fst (is_runtime_exceeded (chiller c) w)), c1), w1) /\
    later w w1 /\ same_board c c1 /\
    pump c1 = pump c /\ dehumidifier c1 = dehumidifier c /\
    chiller c1 =
      if fst (is_runtime_exceeded (chiller c) w)
      then snd (fst (command c (chiller c) false
                       (snd (is_runtime_exceeded (chiller c) w))))
      else chiller c.
Proof.
  rewrite sweep_entry_run.
  destruct (is_runtime_exceeded_at (chiller c) w) as [_ L].
  destruct (fst (is_runtime_exceeded (chiller c) w)).
  - rewrite set_chiller_off. cbn [fst snd]. rewrite andb_false_r.
    do 2 eexists. split; [ reflexivity | ].
    split; [ | unfold same_board; simpl; tauto ].
    eapply later_trans; [ exact L | apply command_off_later ].
  - rewrite andb_true_r. do 2 eexists. split; [ reflexivity | ].
    unfold same_board; tauto.
Qed.

Lemma sweep_dehumidifier (ok : bool) (c : ActuatorController) (w : World) :
  exists c1 w1,
    sweep_entry dehumidifier set_dehumidifier (ok, c) w
    = ((ok && negb (fst (is_runtime_exceeded (dehumidifier c) w)), c1), w1) /\
    later w w1 /\ same_board c c1 /\
    pump c1 = pump c /\ chiller c1 = chiller c /\
    dehumidifier c1 =
      if fst (is_runtime_exceeded (dehumidifier c) w)
      then snd (fst (command c (dehumidifier c) false
                       (snd (is_runtime_exceeded (dehumidifier c) w))))
      else dehumidifier c.
Proof.
  rewrite sweep_entry_run.
  destruct (is_runtime_exceeded_at (dehumidifier c) w) as [_ L].
  destruct (fst (is_runtime_exceeded (dehumidifier c) w)).
  - rewrite set_dehumidifier_off. cbn [fst snd]. rewrite andb_false_r.
    do 2 eexists. split; [ reflexivity | ].
    split; [ | unfold same_board; simpl; tauto ].
    eapply later_trans; [ exact L | apply command_off_later ].
  - rewrite andb_true_r. do 2 eexists. split; [ reflexivity | ].
    unfold same_board; tauto.
Qed.

(** C4, as the code has it.  The sweep tests the pump, the chiller and the
    dehumidifier in that order, each at its own later point [wc], [wd] of the
    same run, then the water level at [wl].  An actuator whose
    [is_runtime_exceeded()] is true is put through [set_*(False)], that is
    [turn_off] followed by the output write, and is not ON afterwards; the
    pump gets the same treatment when the water level check fails while it
    is ON; every other actuator is left as it was.  The result is [True]
    exactly when no runtime was exceeded and the water level check passed:
    a failed check gives [False] whether or not the pump had to be
    stopped. *)
Theorem check_safety_sweep (c : ActuatorController) (w : World) :
  exists wc wd wl : World,
    later w wc /\ later w wd /\ later w wl /\
    let ep := fst (is_runtime_exceeded (pump c) w) in
    let ec := fst (is_runtime_exceeded (chiller c) wc) in
    let ed := fst (is_runtime_exceeded (dehumidifier c) wd) in
    let level_ok := fst (fst (check_water_level c wl)) in
    let ok := fst (fst (check_safety c w)) in
    let c' := snd (fst (check_safety c w)) in
    (ok = true <->
     ep = false /\ ec = false /\ ed = false /\ level_ok = true) /\
    (ep = true ->
     pump c' = snd (fst (command c (pump c) false
                           (snd (is_runtime_exceeded (pump c) w))))) /\
    (ec = true ->
     chiller c' = snd (fst (command c (chiller c) false
                              (snd (is_runtime_exceeded (chiller c) wc))))) /\
    (ed = true ->
     dehumidifier c'
     = snd (fst (command c (dehumidifier c) false
                   (snd (is_runtime_exceeded (dehumidifier c) wd))))) /\
    (ep = false -> level_ok = false -> state (pump c) = ON ->
     pump c' = snd (fst (command c (pump c) false wl))) /\
    (ep = false -> level_ok = true \/ state (pump c) <> ON ->
     pump c' = pump c) /\
    (ec = false -> chiller c' = chiller c) /\
    (ed = false -> dehumidifier c' = dehumidifier c) /\
    (ep = true \/ level_ok = false -> state (pump c') <> ON) /\
    (ec = true -> state (chiller c') <> ON) /\
    (ed = true -> state (dehumidifier c') <> ON).
Proof.
  unfold check_safety, bind.
  destruct (sweep_pump true c w)
    as (c1 & w1 & -> & L1 & (B1i & B1s & B1g) & C1c & C1d & C1p).
  destruct (sweep_chiller
              (true && negb (fst (is_runtime_exceeded (pump c) w))) c1 w1)
    as (c2 & w2 & -> & L2 & (B2i & B2s & B2g) & C2p & C2d & C2c).
  destruct (sweep_dehumidifier
              (true && negb (fst (is_runtime_exceeded (pump c) w))
               && negb (fst (is_runtime_exceeded (chiller c1) w1))) c2 w2)
    as (c3 & w3 & -> & L3 & (B3i & B3s & B3g) & C3p & C3c & C3d).
  exists w1, w2, w3.
  assert (L12 : later w w2) by (eapply later_trans; eassumption).
  assert (L13 : later w w3) by (eapply later_trans; eassumption).
  split; [ exact L1 | ]. split; [ exact L12 | ]. split; [ exact L13 | ].
  pose proof (check_water_level_keeps c3 w3)
    as (Kw & Kp & Kc & Kd & Ki & _).
  assert (Hlvl : fst (fst (check_water_level c3 w3))
                 = fst (fst (check_water_level c w3))).
  { apply check_water_level_same_board; congruence. }
  rewrite C1c in C2c. rewrite C2d, C1d in C3d.
  rewrite C1c. rewrite C2d, C1d.
  destruct (check_water_level c3 w3) as [[lvl c4] w4].
  cbn [fst snd] in *. subst w4. rewrite <- Hlvl.
  set (ep := fst (is_runtime_exceeded (pump c) w)) in *.
  set (ec := fst (is_runtime_exceeded (chiller c) w1)) in *.
  set (ed := fst (is_runtime_exceeded (dehumidifier c) w2)) in *.
  assert (Hp4 : pump c4 = pump c1) by congruence.
  rewrite (command_same_board c1 c) in C2c by congruence.
  rewrite (command_same_board c2 c) in C3d by congruence.
  assert (Hc4 : chiller c4 = chiller c2) by congruence.
  assert (Hd4 : dehumidifier c4 = dehumidifier c3) by congruence.
  assert (Hoff : ep = true -> state (pump c4) <> ON).
  { intros E. rewrite Hp4, C1p, E. apply command_off_not_on. }
  clearbody ep ec ed.
  destruct lvl; cbn [negb].
  - unfold ret. cbn [fst snd].
    rewrite Hp4, Hc4, Hd4, C1p, C2c, C3d.
    repeat match goal with |- _ /\ _ => split end;
      destruct ep, ec, ed; cbn [andb negb]; intros;
      solve [ intuition congruence | apply command_off_not_on ].
  - destruct (state_eqb (state (pump c4)) ON) eqn:Es.
    + apply state_eqb_eq in Es.
      assert (Ep : ep = false).
      { destruct ep; [ | reflexivity ]. exfalso. apply Hoff; auto. }
      rewrite set_pump_off. unfold ret. cbn [fst snd].
      cbn [pump chiller dehumidifier with_pump].
      rewrite (command_same_board c4 c) by congruence.
      rewrite Hp4, Hc4, Hd4, C1p, C2c, C3d, Ep.
      rewrite Hp4, C1p, Ep in Es.
      repeat match goal with |- _ /\ _ => split end;
        destruct ec, ed; intros;
        solve [ intuition congruence | apply command_off_not_on ].
    + apply state_eqb_neq in Es.
      unfold ret. cbn [fst snd].
      rewrite Hp4, Hc4, Hd4, C1p, C2c, C3d.
      rewrite Hp4, C1p in Es.
      repeat match goal with |- _ /\ _ => split end;
        destruct ep, ec, ed; intros;
        solve [ intuition congruence | apply command_off_not_on ].
Qed.

(** C4 as stated fails twice.  With every actuator OFF and the water low,
    the sweep has nothing to switch off, changes nothing, and still returns
    [False].  And a chiller that has run too long on a board whose output
    write raises is left in FAULT, not OFF. *)
Lemma sweep_differs_from_claim :
  (state (chiller overrun_bank) = ON /\
   fst (is_runtime_exceeded (chiller overrun_bank) failing_board) = true /\
   state (chiller (snd (fst (check_safety overrun_bank failing_board))))
   = FAULT) /\
  state (pump (bank low_water_world)) = OFF /\
  state (chiller (bank low_water_world)) = OFF /\
  state (dehumidifier (bank low_water_world)) = OFF /\
  pump (snd (fst (check_safety (bank low_water_world) low_water_world)))
  = pump (bank low_water_world) /\
  chiller (snd (fst (check_safety (bank low_water_world) low_water_world)))
  = chiller (bank low_water_world) /\
  dehumidifier
    (snd (fst (check_safety (bank low_water_world) low_water_world)))
  = dehumidifier (bank low_water_world) /\
  snd (check_safety (bank low_water_world) low_water_world)
  = low_water_world /\
  fst (fst (check_safety (bank low_water_world) low_water_world)) = false.
Proof. repeat split. Qed.

End ActuatorTheory.

(** * Properties of the control engine *)

Module EngineTheory.
Import ControlEngine EngineSpec.

(** *** The histories *)

Lemma length_deque_append {A : Type} (maxlen : nat) (d : list A) (x : A) :
  length (deque_append maxlen d x)
  = (S (length d) - (S (length d) - maxlen))%nat.
Proof.
  unfold deque_append. rewrite length_skipn, length_app. simpl.
  replace (length d + 1)%nat with (S (length d)) by lia. reflexivity.
Qed.

Lemma add_reading_keeps (e : Engine) (t h : Q) (w : World) :
  let e1 := fst (add_reading e t h w) in
  safety_params e1 = safety_params e /\
  temp_target e1 = temp_target e /\ temp_min e1 = temp_min e /\
  temp_max e1 = temp_max e /\ humidity_target e1 = humidity_target e /\
  humidity_max e1 = humidity_max e /\
  temp_hysteresis e1 = temp_hysteresis e.
Proof. simpl. repeat split. Qed.

Lemma add_reading_aligned (e : Engine) (t h : Q) (w : World) :
  histories_aligned e -> histories_aligned (fst (add_reading e t h w)).
Proof.
  unfold histories_aligned. intros [Ht Hh]. simpl.
  rewrite !length_deque_append, Ht, Hh. split; reflexivity.
Qed.

Lemma init_aligned (config : Settings.Config) (w : World) :
  histories_aligned (fst (HybridControlEngine_init config w)).
Proof. split; reflexivity. Qed.

Lemma execute_decision_aligned (e : Engine) (d : ControlDecision)
    (w : World) :
  histories_aligned e -> histories_aligned (fst (execute_decision e d w)).
Proof.
  unfold histories_aligned, execute_decision, bind, ret, time_time.
  destruct (negb _); destruct (pump d); simpl; auto.
Qed.

(** *** No subscript out of range on aligned histories *)

Lemma recent_from_ok (ct tw : Q) (rvalues : list Q)
    (rhist : list SensorReading) :
  forall i : nat,
    (i + length rhist <= length rvalues)%nat ->
    exists l, recent_from ct tw rvalues i rhist = Ok l.
Proof.
  induction rhist as [| r rest IH]; intros i Hlen; simpl in *.
  - eexists. reflexivity.
  - destruct (Qle_bool (ct - timestamp r) tw); [ | eexists; reflexivity ].
    destruct (nth_error rvalues i) as [v|] eqn:En.
    + destruct (IH (S i)) as [l Hl]; [ lia | ].
      rewrite Hl. eexists. reflexivity.
    + apply nth_error_None in En. lia.
Qed.

Lemma calculate_rate_no_raise (e : Engine) (values : list Q) (tw : Q)
    (w : World) :
  length values = length (reading_history e) ->
  exists rate, fst (calculate_rate_of_change e values tw w) = Ok rate.
Proof.
  intros Hlen. unfold calculate_rate_of_change, bind, ret, time_time.
  destruct (length values <? 2)%nat; [ eexists; reflexivity | ].
  destruct (recent_from_ok (clock w (reads w)) tw (rev values)
              (rev (reading_history e)) 0) as [l Hl].
  { rewrite !length_rev. lia. }
  simpl. rewrite Hl.
  destruct (length l <? 2)%nat; [ eexists; reflexivity | ].
  destruct (Qlt_bool _ 1); eexists; reflexivity.
Qed.

(** C1.  On an engine whose histories are aligned (every engine the
    constructor and the methods produce), a temperature strictly above the
    configured emergency shutdown temperature makes [make_decision] return,
    for every humidity and every history, the EMERGENCY decision: pump and
    chiller on, dehumidifier off, priority 10, with the emergency reason; the
    call returns at that rule, so none of the later ones is evaluated. *)
Theorem emergency_first (e : Engine) (temperature humidity : Q) (w : World) :
  histories_aligned e ->
  from_option (Settings.emergency_shutdown_temp (safety_params e)) 15
  < temperature ->
  exists d,
    fst (fst (make_decision e temperature humidity w)) = Ok d /\
    mode d = EMERGENCY /\ pump d = true /\ chiller d = true /\
    dehumidifier d = false /\ priority d = 10%Z /\
    reason d
    = reason_emergency temperature
        (from_option (Settings.emergency_shutdown_temp (safety_params e)) 15).
Proof.
  intros Hal Hhot. unfold make_decision, bind.
  pose proof (add_reading_aligned e temperature humidity w Hal) as [Ht Hh].
  pose proof (add_reading_keeps e temperature humidity w) as (Hs & _).
  destruct (add_reading e temperature humidity w) as [e1 w1].
  cbn [fst] in Ht, Hh, Hs.
  destruct (calculate_rate_no_raise e1 (temp_history e1) 60 w1 Ht)
    as [temp_rate Hr1].
  destruct (calculate_rate_of_change e1 (temp_history e1) 60 w1)
    as [r1 w2]. cbn [fst] in Hr1. subst r1.
  destruct (calculate_rate_no_raise e1 (humidity_history e1) 60 w2 Hh)
    as [humidity_rate Hr2].
  destruct (calculate_rate_of_change e1 (humidity_history e1) 60 w2)
    as [r2 w3]. cbn [fst] in Hr2. subst r2.
  destruct (assess_temperature e1 temperature temp_rate) as [ta tu].
  destruct (assess_humidity e1 humidity humidity_rate) as [ha hu].
  rewrite Hs. apply Qlt_bool_iff in Hhot. rewrite Hhot.
  unfold ControlDecision_init, bind, ret, time_time. cbn [fst snd].
  eexists. repeat split.
Qed.

Lemma emergency_first_witness :
  exists d,
    fst (fst (make_decision (mango_engine 0) 16 50 (ticking [] 100))) = Ok d /\
    mode d = EMERGENCY /\ priority d = 10%Z.
Proof.
  destruct (emergency_first (mango_engine 0) 16 50 (ticking [] 100))
    as (d & Hd & Hm & _ & _ & _ & Hp & _).
  - apply init_aligned.
  - reflexivity.
  - exists d. repeat split; assumption.
Defined.

Lemma mode_eqb_eq (m1 m2 : CoolingMode) : mode_eqb m1 m2 = true <-> m1 = m2.
Proof. destruct m1, m2; simpl; split; congruence. Qed.

(** ** The sign of the computed rate *)

(** C7 at a rising series.  Two samples, 10 degrees at 0 s and 11 degrees at
    30 s, both inside the 60 s window: the linear change per minute is
    [(11 - 10) / 30 * 60 = 2], and [calculate_rate_of_change] returns [-2].
    [recent_readings] is filled newest first, so [vals[-1] - vals[0]] is
    oldest minus newest. *)
Theorem rising_rate_is_negative :
  exists r, rising_rate = Ok (Some r) /\ r == -2 /\ r < 0 /\
            ~ r == (11 - 10) / (30 - 0) * 60.
Proof.
  exists (-60 # 30). split; [ reflexivity | ].
  split; [ reflexivity | ]. split; [ reflexivity | ].
  intros H. discriminate H.
Qed.

Lemma falling_rate_is_positive :
  exists r, falling_rate = Ok (Some r) /\ r == 2 /\ 0 < r.
Proof.
  exists (60 # 30). repeat split.
Qed.

(** ** Accounting of the time spent in each mode *)
Lemma sum_durations_add (durations : CoolingMode -> Q) (m : CoolingMode)
    (x : Q) :
  sum_durations (add_duration durations m x) == sum_durations durations + x.
Proof.
  unfold sum_durations, add_duration, all_modes.
  destruct m; simpl; ring.
Qed.

Lemma execute_decision_accounting (e : Engine) (d : ControlDecision)
    (w : World) (now : Q) :
  accounted (fst (execute_decision e d w)) now
  == accounted e now - read_gap e d w.
Proof.
  unfold accounted, read_gap, execute_decision, bind, ret, time_time.
  destruct (mode_eqb (current_mode e) (mode d)); simpl.
  - destruct (pump d); simpl; ring.
  - destruct (pump d); simpl; rewrite sum_durations_add; ring.
Qed.

(** What the counters add up to after any run of [execute_decision]: the
    total before the run, less the gap between the two clock reads of every
    call that changed the mode. *)
Theorem accounting_with_gaps (e : Engine)
    (calls : list (ControlDecision * World)) (now : Q) :
  accounted (execute_all e calls) now == accounted e now - total_gap e calls.
Proof.
  revert e. induction calls as [| [d w] rest IH]; intros e; simpl.
  - ring.
  - rewrite IH, execute_decision_accounting. ring.
Qed.

(** When the two reads of every call return the same instant, nothing is
    lost. *)
Lemma no_gap_when_reads_agree (e : Engine)
    (calls : list (ControlDecision * World)) :
  Forall (fun c => clock (snd c) (S (reads (snd c)))
                   == clock (snd c) (reads (snd c))) calls ->
  total_gap e calls == 0.
Proof.
  intros Hall. revert e.
  induction Hall as [| [d w] rest Hread _ IH]; intros e; simpl.
  - reflexivity.
  - rewrite IH. unfold read_gap. simpl in Hread.
    destruct (mode_eqb (current_mode e) (mode d)); lra.
Qed.

Lemma accounted_at_construction (config : Settings.Config) (w : World)
    (now : Q) :
  accounted (fst (HybridControlEngine_init config w)) now
  == now - clock w (reads w).
Proof.
  unfold accounted, HybridControlEngine_init, bind, ret, time_time,
    sum_durations. simpl. ring.
Qed.

(** The law as the data model words it, under the assumption it needs: from
    construction on, if both reads of every call agree, the counters and the
    open interval add up to the time elapsed. *)
Lemma accounting_exact_when_reads_agree (config : Settings.Config)
    (w0 : World) (calls : list (ControlDecision * World)) (now : Q) :
  Forall (fun c => clock (snd c) (S (reads (snd c)))
                   == clock (snd c) (reads (snd c))) calls ->
  accounted (execute_all (fst (HybridControlEngine_init config w0)) calls) now
  == now - clock w0 (reads w0).
Proof.
  intros Hall.
  rewrite accounting_with_gaps, accounted_at_construction.
  rewrite (no_gap_when_reads_agree _ _ Hall). ring.
Qed.

(** C10 at one mode change.  The engine is constructed at clock reading 0;
    [execute_decision] switches IDLE to EVAPORATIVE, reading 10 for the
    duration and 11 for [last_mode_change]; sampled at 20, the counters and
    the open interval add up to 19 of the 20 seconds elapsed. *)
Theorem accounting_loses_read_gap :
  let e := fst (execute_decision (mango_engine 0) evaporative_decision
                  (ticking [10; 11] 11)) in
  current_mode e = EVAPORATIVE /\
  accounted e 20 == 19 /\
  ~ accounted e 20 == 20 - 0.
Proof.
  simpl. split; [ reflexivity | ]. split.
  - vm_compute. reflexivity.
  - vm_compute. discriminate.
Qed.

(** ** The mango example *)

Lemma mango_engine_targets (t0 : Q) : mango_targets (mango_engine t0).
Proof. repeat split. Qed.

(** Under [humidity_max - 5] lies the headroom the evaporative rule asks
    for; from there on only the predictive rule can still give EVAPORATIVE,
    with priority 5 and under [humidity_max - 3]. *)
Lemma decide_rules_evaporative (e : Engine) (h : Q) (rate : option Q)
    (ta ha : Assessment) (tu hu : Z) (w : World) :
  let d := fst (decide_rules e h rate ta tu ha hu w) in
  mode d = EVAPORATIVE ->
  h < humidity_max e - 3 /\
  (humidity_max e - 5 <= h -> priority d = 5%Z).
Proof.
  cbv zeta.
  unfold decide_rules, ControlDecision_init, can_spray_now, bind, ret,
    time_time.
  destruct (8 <=? tu)%Z.
  { destruct (Qlt_bool h (humidity_max e)); simpl; discriminate. }
  destruct (7 <=? hu)%Z.
  { destruct (3 <? tu)%Z; simpl; discriminate. }
  assert (Hpred : forall r,
            Qlt_bool (temp_rate_warning e) r
            && Qlt_bool h (humidity_max e - 3) = true ->
            h < humidity_max e - 3).
  { intros r Hr. apply andb_true_iff in Hr. destruct Hr as [_ Hr].
    apply Qlt_bool_iff. exact Hr. }
  destruct ((4 <=? tu)%Z && Qlt_bool h (humidity_max e - 5)) eqn:E5; simpl.
  - apply andb_true_iff in E5. destruct E5 as [_ E5].
    apply Qlt_bool_iff in E5.
    destruct (Qle_bool _ _); simpl.
    + intros _. split; [ lra | intros Hc; lra ].
    + destruct ((3 <=? tu)%Z && (3 <=? hu)%Z); simpl; [ discriminate | ].
      destruct rate as [r|]; simpl; [ | discriminate ].
      destruct (Qlt_bool (temp_rate_warning e) r
                && Qlt_bool h (humidity_max e - 3)) eqn:Ep; simpl;
        [ | discriminate ].
      intros _. split; [ apply (Hpred r Ep) | reflexivity ].
  - destruct ((3 <=? tu)%Z && (3 <=? hu)%Z); simpl; [ discriminate | ].
    destruct rate as [r|]; simpl; [ | discriminate ].
    destruct (Qlt_bool (temp_rate_warning e) r
              && Qlt_bool h (humidity_max e - 3)) eqn:Ep; simpl;
      [ | discriminate ].
    intros _. split; [ apply (Hpred r Ep) | reflexivity ].
Qed.

(** C8, as the code has it.  On aligned histories [make_decision] returns
    EVAPORATIVE only with humidity headroom: under [humidity_max - 5] by the
    evaporative rule, or under [humidity_max - 3] by the predictive rule
    (priority 5).  With the mango targets of [settings.py] (humidity maximum
    90.0) a humidity of 88 percent is under neither 85 nor 87, so
    [make_decision(9.5, 88)], like every reading at 87 percent or more, is
    not EVAPORATIVE, whatever the history and whether or not the spray
    cooldown has elapsed. *)
Theorem evaporative_needs_headroom (e : Engine) (t h : Q) (w : World) :
  histories_aligned e ->
  exists d,
    fst (fst (make_decision e t h w)) = Ok d /\
    (mode d = EVAPORATIVE ->
     h < humidity_max e - 3 /\
     (humidity_max e - 5 <= h -> priority d = 5%Z)) /\
    (mango_targets e -> 87 <= h -> mode d <> EVAPORATIVE).
Proof.
  intros Hal.
  assert (Hmain : exists d,
            fst (fst (make_decision e t h w)) = Ok d /\
            (mode d = EVAPORATIVE ->
             h < humidity_max e - 3 /\
             (humidity_max e - 5 <= h -> priority d = 5%Z))).
  { unfold make_decision, bind.
    pose proof (add_reading_aligned e t h w Hal) as [Ht Hh].
    pose proof (add_reading_keeps e t h w)
      as (Ks & Ktt & Ktmin & Ktmax & Kht & Khmax & Khys).
    destruct (add_reading e t h w) as [e1 w1].
    cbn [fst] in *.
    destruct (calculate_rate_no_raise e1 (temp_history e1) 60 w1 Ht)
      as [temp_rate Hr1].
    destruct (calculate_rate_of_change e1 (temp_history e1) 60 w1)
      as [r1 w2]. cbn [fst] in Hr1. subst r1.
    destruct (calculate_rate_no_raise e1 (humidity_history e1) 60 w2 Hh)
      as [humidity_rate Hr2].
    destruct (calculate_rate_of_change e1 (humidity_history e1) 60 w2)
      as [r2 w3]. cbn [fst] in Hr2. subst r2.
    destruct (assess_temperature e1 t temp_rate) as [ta tu].
    destruct (assess_humidity e1 h humidity_rate) as [ha hu].
    destruct (Qlt_bool _ t).
    - unfold ControlDecision_init, bind, ret, time_time. simpl.
      eexists. split; [ reflexivity | ]. simpl. discriminate.
    - pose proof (decide_rules_evaporative e1 h temp_rate ta ha tu hu w3)
        as Hev. cbv zeta in Hev. rewrite Khmax in Hev.
      destruct (decide_rules e1 h temp_rate ta tu ha hu w3) as [d w4].
      unfold ret. cbn [fst] in *.
      exists d. split; [ reflexivity | exact Hev ]. }
  destruct Hmain as (d & Hd & Hev).
  exists d. split; [ exact Hd | ]. split; [ exact Hev | ].
  intros (_ & _ & _ & _ & Hhmax & _) Hh Hm.
  destruct (Hev Hm) as [Hlt _].
  rewrite Hhmax in Hlt. unfold Settings.TARGET_HUMIDITY_MAX in Hlt. lra.
Qed.

Lemma evaporative_needs_headroom_witness :
  exists d,
    fst (fst (make_decision (mango_engine 0) (95 # 10) 88 (ticking [] 100)))
    = Ok d /\ mode d <> EVAPORATIVE.
Proof.
  destruct (evaporative_needs_headroom (mango_engine 0) (95 # 10) 88
              (ticking [] 100)) as (d & Hd & _ & Hm).
  - apply init_aligned.
  - exists d. split; [ exact Hd | ]. apply Hm.
    + apply mango_engine_targets.
    + vm_compute. discriminate.
Defined.

(** C8 as stated fails: on the engine of [settings.py], never sprayed, 100 s
    after the epoch (the 30 s cooldown has elapsed),
    [make_decision(9.5, 88)] is CHILLER, not EVAPORATIVE. *)
Lemma mango_cool_reading_not_evaporative :
  spray_last_activated (mango_engine 0) = 0 /\
  exists d,
    fst (fst (make_decision (mango_engine 0) (95 # 10) 88 (ticking [] 100)))
    = Ok d /\ mode d = CHILLER /\ mode d <> EVAPORATIVE.
Proof.
  split; [ reflexivity | ].
  eexists. split; [ reflexivity | ]. split; [ reflexivity | discriminate ].
Qed.

(** ** Insufficient data *)

Lemma Qmax2_bounds (x y : Q) : x <= Qmax2 x y /\ y <= Qmax2 x y.
Proof.
  unfold Qmax2. destruct (Qlt_bool x y) eqn:E.
  - apply Qlt_bool_iff in E. split; [ apply Qlt_le_weak; exact E | apply Qle_refl ].
  - apply Qlt_bool_false_iff in E. split; [ apply Qle_refl | exact E ].
Qed.

Lemma Qmin2_bounds (x y : Q) : Qmin2 x y <= x /\ Qmin2 x y <= y.
Proof.
  unfold Qmin2. destruct (Qlt_bool y x) eqn:E.
  - apply Qlt_bool_iff in E. split; [ apply Qlt_le_weak; exact E | apply Qle_refl ].
  - apply Qlt_bool_false_iff in E. split; [ apply Qle_refl | exact E ].
Qed.

Lemma fold_max_upper (xs : list Q) :
  forall x, x <= fold_left Qmax2 xs x /\
            forall y, In y xs -> y <= fold_left Qmax2 xs x.
Proof.
  induction xs as [| a xs IH]; intros x; simpl.
  - split; [ apply Qle_refl | tauto ].
  - destruct (IH (Qmax2 x a)) as [H1 H2].
    destruct (Qmax2_bounds x a) as [Hx Ha]. split.
    + eapply Qle_trans; eassumption.
    + intros y [-> | Hy]; [ eapply Qle_trans; eassumption | auto ].
Qed.

Lemma fold_min_lower (xs : list Q) :
  forall x, fold_left Qmin2 xs x <= x /\
            forall y, In y xs -> fold_left Qmin2 xs x <= y.
Proof.
  induction xs as [| a xs IH]; intros x; simpl.
  - split; [ apply Qle_refl | tauto ].
  - destruct (IH (Qmin2 x a)) as [H1 H2].
    destruct (Qmin2_bounds x a) as [Hx Ha]. split.
    + eapply Qle_trans; eassumption.
    + intros y [-> | Hy]; [ eapply Qle_trans; eassumption | auto ].
Qed.

Lemma fold_max_member (xs : list Q) :
  forall x, In (fold_left Qmax2 xs x) (x :: xs).
Proof.
  induction xs as [| a xs IH]; intros x; simpl.
  - left. reflexivity.
  - destruct (IH (Qmax2 x a)) as [H | H].
    + unfold Qmax2 in H at 1. destruct (Qlt_bool x a); auto.
    + auto.
Qed.

Lemma fold_min_member (xs : list Q) :
  forall x, In (fold_left Qmin2 xs x) (x :: xs).
Proof.
  induction xs as [| a xs IH]; intros x; simpl.
  - left. reflexivity.
  - destruct (IH (Qmin2 x a)) as [H | H].
    + unfold Qmin2 in H at 1. destruct (Qlt_bool a x); auto.
    + auto.
Qed.

Lemma list_max_upper (l : list Q) (y : Q) : In y l -> y <= list_max l.
Proof.
  destruct l as [| x xs]; simpl; [ tauto | ].
  destruct (fold_max_upper xs x) as [H1 H2].
  intros [<- | Hy]; auto.
Qed.

Lemma list_min_lower (l : list Q) (y : Q) : In y l -> list_min l <= y.
Proof.
  destruct l as [| x xs]; simpl; [ tauto | ].
  destruct (fold_min_lower xs x) as [H1 H2].
  intros [<- | Hy]; auto.
Qed.

Lemma list_max_member (l : list Q) : l <> [] -> In (list_max l) l.
Proof.
  destruct l as [| x xs]; [ congruence | ]. intros _.
  apply fold_max_member.
Qed.

Lemma list_min_member (l : list Q) : l <> [] -> In (list_min l) l.
Proof.
  destruct l as [| x xs]; [ congruence | ]. intros _.
  apply fold_min_member.
Qed.

(** The range of a part is no wider than the range of the whole. *)
Lemma range_of_part (part whole : list Q) :
  part <> [] -> incl part whole ->
  list_max part - list_min part <= list_max whole - list_min whole.
Proof.
  intros Hne Hincl.
  pose proof (list_max_upper whole _ (Hincl _ (list_max_member part Hne))).
  pose proof (list_min_lower whole _ (Hincl _ (list_min_member part Hne))).
  lra.
Qed.

(** The loop keeps the leading run of in-window readings, newest first. *)
Lemma recent_from_window (ct tw : Q) (rvalues : list Q)
    (rhist : list SensorReading) :
  forall (i : nat) (l : list (Q * Q)),
    recent_from ct tw rvalues i rhist = Ok l ->
    (length l
     <= length (filter (fun r => Qle_bool (ct - timestamp r) tw) rhist))%nat /\
    incl (map fst l)
         (map timestamp
              (filter (fun r => Qle_bool (ct - timestamp r) tw) rhist)).
Proof.
  induction rhist as [| r rest IH]; intros i l Hl; simpl in *.
  - injection Hl as <-. split; [ simpl; lia | apply incl_refl ].
  - destruct (Qle_bool (ct - timestamp r) tw).
    + destruct (nth_error rvalues i) as [v|]; [ | discriminate ].
      destruct (recent_from ct tw rvalues (S i) rest) as [l'|] eqn:El;
        [ | discriminate ].
      injection Hl as <-. destruct (IH _ _ El) as [Hlen Hin].
      simpl. split; [ lia | ].
      intros t [<- | Ht]; [ left; reflexivity | right; auto ].
    + injection Hl as <-. split; [ simpl; lia | ].
      intros t [].
Qed.

Lemma in_window_rev (e : Engine) (ct tw : Q) :
  filter (fun r => Qle_bool (ct - timestamp r) tw) (rev (reading_history e))
  = rev (in_window e ct tw).
Proof. unfold in_window. apply filter_rev. Qed.

(** C6.  On aligned histories (the series has one value per reading),
    [calculate_rate_of_change] returns [None], and so never [0], whenever
    the series has fewer than 2 samples, or fewer than 2 samples fall inside
    the time window at the moment of the call, or the samples inside the
    window span less than 1 second. *)
Theorem rate_unknown_without_data (e : Engine) (values : list Q) (tw : Q)
    (w : World) :
  length values = length (reading_history e) ->
  (length values < 2)%nat \/
  (length (in_window e (clock w (reads w)) tw) < 2)%nat \/
  span (in_window e (clock w (reads w)) tw) < 1 ->
  fst (calculate_rate_of_change e values tw w) = Ok None /\
  fst (calculate_rate_of_change e values tw w) <> Ok (Some 0).
Proof.
  intros Hlen Hcase.
  assert (Hnone : fst (calculate_rate_of_change e values tw w) = Ok None).
  { unfold calculate_rate_of_change, bind, ret, time_time.
    destruct (length values <? 2)%nat eqn:E2; [ reflexivity | ].
    apply Nat.ltb_ge in E2.
    destruct Hcase as [Hfew | Hcase]; [ lia | ].
    destruct (recent_from_ok (clock w (reads w)) tw (rev values)
                (rev (reading_history e)) 0) as [l Hl].
    { rewrite !length_rev. lia. }
    cbn [fst snd]. rewrite Hl.
    destruct (recent_from_window _ _ _ _ _ _ Hl) as [Hcount Hincl].
    rewrite in_window_rev in Hcount, Hincl.
    rewrite length_rev in Hcount.
    destruct (length l <? 2)%nat eqn:El; [ reflexivity | ].
    apply Nat.ltb_ge in El.
    destruct Hcase as [Hfew | Hspan]; [ lia | ].
    assert (Hne : map fst l <> []).
    { destruct l; simpl in *; [ lia | discriminate ]. }
    assert (Hrange : list_max (map fst l) - list_min (map fst l)
                     <= span (in_window e (clock w (reads w)) tw)).
    { unfold span. apply range_of_part; [ exact Hne | ].
      intros t Ht. apply Hincl in Ht. rewrite map_rev in Ht.
      apply in_rev in Ht. exact Ht. }
    assert (Hlt : Qlt_bool (list_max (map fst l) - list_min (map fst l)) 1
                  = true).
    { apply Qlt_bool_iff. eapply Qle_lt_trans; eassumption. }
    rewrite Hlt. reflexivity. }
  split; [ exact Hnone | ]. rewrite Hnone. discriminate.
Qed.

Lemma rate_unknown_without_data_witness :
  fst (calculate_rate_of_change (fst close_samples)
         (temp_history (fst close_samples)) 60 (snd close_samples))
  = Ok None.
Proof.
  apply (rate_unknown_without_data (fst close_samples)
           (temp_history (fst close_samples)) 60 (snd close_samples)).
  - reflexivity.
  - right. right. vm_compute. reflexivity.
Defined.

(** What the code returns on two samples inside the window, at least one
    second apart: the older value minus the newer one, per minute.  A rising
    pair gets a negative rate and a falling pair a positive one. *)
Lemma two_sample_rate (e : Engine) (w : World) (old new : SensorReading)
    (v_old v_new tw : Q) :
  reading_history e = [old; new] ->
  clock w (reads w) - timestamp old <= tw ->
  clock w (reads w) - timestamp new <= tw ->
  1 <= timestamp new - timestamp old ->
  exists r,
    fst (calculate_rate_of_change e [v_old; v_new] tw w) = Ok (Some r) /\
    r == (v_old - v_new) / (timestamp new - timestamp old) * 60.
Proof.
  intros Hh Ho Hn Hsp.
  unfold calculate_rate_of_change, bind, ret, time_time. rewrite Hh.
  apply Qle_bool_iff in Ho, Hn. simpl. rewrite Ho, Hn. simpl.
  assert (H1 : Qlt_bool (timestamp new) (timestamp old) = false).
  { apply Qlt_bool_false_iff. lra. }
  assert (H2 : Qlt_bool (timestamp old) (timestamp new) = true).
  { apply Qlt_bool_iff. lra. }
  unfold Qmax2, Qmin2. rewrite H1, H2.
  assert (H3 : Qlt_bool (timestamp new - timestamp old) 1 = false).
  { apply Qlt_bool_false_iff. exact Hsp. }
  rewrite H3. eexists. split; reflexivity.
Qed.

End EngineTheory.

(** * Further properties of the actuators *)

Module ActuatorExtras.
Import Actuators ActuatorSpec ActuatorStatus ActuatorScenarios ActuatorTheory.

(** X1.  [turn_off] has no gate: in every state and at every moment it
    returns [True] and leaves the actuator OFF with its cycle count as it
    was.  An actuator that was ON with a start time books exactly the time
    from [runtime_start] to the first clock read into [total_runtime]; from
    FAULT (or with no start time) [total_runtime] is unchanged. *)
Theorem turn_off_never_refused (a : Actuator) (w : World) :
  fst (fst (turn_off a w)) = true /\
  state (snd (fst (turn_off a w))) = OFF /\
  cycle_count (snd (fst (turn_off a w))) = cycle_count a /\
  (state a = OFF -> turn_off a w = ((true, a), w)) /\
  (state a <> OFF -> runtime_start (snd (fst (turn_off a w))) = None) /\
  (state a = ON -> opt_truthy (runtime_start a) = true ->
   total_runtime (snd (fst (turn_off a w)))
   = total_runtime a
     + (clock w (reads w) - from_option (runtime_start a) 0) /\
   last_state_change (snd (fst (turn_off a w))) = clock w (S (reads w))) /\
  (state a <> ON ->
   total_runtime (snd (fst (turn_off a w))) = total_runtime a).
Proof.
  unfold turn_off, bind, ret, time_time.
  destruct (state a) eqn:Es; simpl.
  - repeat split; auto; congruence.
  - destruct (opt_truthy (runtime_start a)); simpl;
      repeat split; auto; congruence.
  - repeat split; auto; congruence.
Qed.

(** X2.  Anti-short-cycling across a stop: after [turn_off] of a running
    actuator, [turn_on] is refused, and changes nothing, as long as less than
    [min_cycle_time] has passed since the clock read [turn_off] stored; once
    that time has passed it succeeds and counts one more cycle. *)
Theorem restart_after_stop_is_gated (a : Actuator) (w_off w_on : World) :
  state a = ON ->
  let a1 := snd (fst (turn_off a w_off)) in
  last_state_change a1
  = clock w_off (if opt_truthy (runtime_start a)
                 then S (reads w_off) else reads w_off) /\
  (clock w_on (reads w_on) - last_state_change a1 < min_cycle_time a ->
   fst (turn_on a1 w_on) = (false, a1)) /\
  (min_cycle_time a <= clock w_on (reads w_on) - last_state_change a1 ->
   fst (fst (turn_on a1 w_on)) = true /\
   state (snd (fst (turn_on a1 w_on))) = ON /\
   cycle_count (snd (fst (turn_on a1 w_on))) = S (cycle_count a)).
Proof.
  intros Hon. unfold turn_off, bind, ret, time_time. rewrite Hon. simpl.
  destruct (opt_truthy (runtime_start a)); simpl;
    (split; [ reflexivity | ]);
    unfold turn_on, can_change_state, bind, ret, time_time; simpl;
    split; intros Hgate.
  - apply Qle_bool_false_iff in Hgate. rewrite Hgate. reflexivity.
  - apply Qle_bool_iff in Hgate. rewrite Hgate. repeat split.
  - apply Qle_bool_false_iff in Hgate. rewrite Hgate. reflexivity.
  - apply Qle_bool_iff in Hgate. rewrite Hgate. repeat split.
Qed.


Lemma restart_after_stop_is_gated_witness :
  fst (turn_on (snd (fst (turn_off running_chiller
                            (world_at 200 true no_raise water_high))))
         (world_at 204 true no_raise water_high))
  = (false,
     snd (fst (turn_off running_chiller
                 (world_at 200 true no_raise water_high)))).
Proof.
  destruct (restart_after_stop_is_gated running_chiller
              (world_at 200 true no_raise water_high)
              (world_at 204 true no_raise water_high) eq_refl)
    as (_ & Hrefuse & _).
  apply Hrefuse. reflexivity.
Defined.

(** X3.  [emergency_stop] clears the state and [runtime_start] and nothing
    else: the running time of the stopped run is not added to
    [total_runtime], and [last_state_change] keeps its old value, so that a
    [turn_on] after the stop is gated by the last change before it. *)
Theorem emergency_stop_keeps_gate (a : Actuator) (w : World) :
  state (emergency_stop a) = OFF /\
  runtime_start (emergency_stop a) = None /\
  total_runtime (emergency_stop a) = total_runtime a /\
  last_state_change (emergency_stop a) = last_state_change a /\
  cycle_count (emergency_stop a) = cycle_count a /\
  fst (fst (turn_on (emergency_stop a) w))
  = Qle_bool (min_cycle_time a) (clock w (reads w) - last_state_change a).
Proof.
  repeat split.
  unfold turn_on, can_change_state, bind, ret, time_time. simpl.
  destruct (Qle_bool _ _); reflexivity.
Qed.

Lemma step_cycle_count (a : Actuator) (op : Operation) (w : World) :
  (cycle_count a <= cycle_count (step a op w))%nat /\
  (cycle_count (step a op w)
   <= cycle_count a + (match op with do_turn_on => 1 | _ => 0 end))%nat.
Proof.
  destruct op; simpl; try lia.
  - unfold turn_on, can_change_state, bind, ret, time_time.
    destruct (state_eqb (state a) ON); simpl; [ lia | ].
    destruct (Qle_bool _ _); simpl; lia.
  - unfold turn_off, bind, ret, time_time.
    destruct (state_eqb (state a) OFF); simpl; [ lia | ].
    destruct (state_eqb (state a) ON && opt_truthy (runtime_start a));
      simpl; lia.
Qed.

(** X4.  Over any history of operations [cycle_count] never decreases, and
    it grows by at most the number of [turn_on] calls. *)
Theorem cycle_count_bounds (a : Actuator) (ops : list (Operation * World)) :
  (cycle_count a <= cycle_count (run a ops))%nat /\
  (cycle_count (run a ops) <= cycle_count a + count_turn_on ops)%nat.
Proof.
  revert a. induction ops as [| [op w] rest IH]; intros a; simpl.
  - lia.
  - destruct (IH (step a op w)) as [Hlo Hhi].
    destruct (step_cycle_count a op w) as [Slo Shi].
    destruct op; simpl in *; lia.
Qed.

(** X12.  The status report agrees with [turn_off]: [total_runtime] plus the
    reported [current_runtime] is the [total_runtime] that switching off at
    the same clock read leaves; for an actuator that is not ON the reported
    [current_runtime] is 0. *)
Theorem status_books_what_turn_off_would (a : Actuator) (w : World) :
  let s := fst (get_status a w) in
  status_total_runtime s + current_runtime s
  == total_runtime (snd (fst (turn_off a w))) /\
  (state a <> ON -> current_runtime s = 0) /\
  status_state s = state a /\
  status_cycle_count s = cycle_count a.
Proof.
  unfold get_status, turn_off, bind, ret, time_time.
  destruct (state a) eqn:Es; simpl.
  - repeat split; try congruence. ring.
  - destruct (opt_truthy (runtime_start a)); simpl;
      repeat split; try congruence; ring.
  - repeat split; try congruence. ring.
Qed.

Lemma not_on_not_exceeded (a : Actuator) (w : World) :
  state a <> ON -> is_runtime_exceeded a w = (false, w).
Proof.
  intros H. unfold is_runtime_exceeded.
  rewrite (proj2 (state_eqb_neq _ _) H). reflexivity.
Qed.

(** X6.  [check_water_level] fails exactly when the GPIO is initialised, the
    check is enabled and the input does not read HIGH (it reads LOW or the
    read raises): simulation mode and a disabled check pass without looking.
    A read that returns is both the result and the new cached
    [water_level_ok] (true exactly for HIGH); in simulation mode, with the
    check disabled, and when the read raises, the cache is left as it
    was. *)
Theorem check_water_level_fails_iff (c : ActuatorController) (w : World) :
  let pin :=
    from_option (Settings.water_level_sensor (gpio_config c)) 23%Z in
  let enabled :=
    from_option (Settings.enable_water_level_check (safety_config c)) true in
  let c' := snd (fst (check_water_level c w)) in
  (fst (fst (check_water_level c w)) = false <->
   gpio_initialized c = true /\ enabled = true /\
   input_level w pin <> Some GPIO_HIGH) /\
  (forall v,
     gpio_initialized c = true -> enabled = true ->
     input_level w pin = Some v ->
     fst (fst (check_water_level c w)) = Bool.eqb v GPIO_HIGH /\
     water_level_ok c' = Bool.eqb v GPIO_HIGH) /\
  (gpio_initialized c = false \/ enabled = false \/ input_level w pin = None ->
   water_level_ok c' = water_level_ok c).
Proof.
  cbv zeta.
  unfold check_water_level, GPIO_input, bind, ret, GPIO_HIGH.
  destruct (gpio_initialized c); simpl.
  - destruct (from_option _ true); simpl.
    + destruct (input_level w _) as [[|]|]; simpl.
      * split; [ split; intros; intuition congruence | ].
        split; [ intros v _ _ Hv; injection Hv as <-; split; reflexivity | ].
        intros [H | [H | H]]; discriminate.
      * split; [ split; intros; intuition congruence | ].
        split; [ intros v _ _ Hv; injection Hv as <-; split; reflexivity | ].
        intros [H | [H | H]]; discriminate.
      * split; [ split; intros; intuition congruence | ].
        split; [ intros v _ _ Hv; discriminate | reflexivity ].
    + split; [ split; intros; intuition congruence | ].
      split; [ intros v _ Hc; discriminate | reflexivity ].
  - split; [ split; intros; intuition congruence | ].
    split; [ intros v Hc; discriminate | reflexivity ].
Qed.

Lemma command_off_succeeds (c : ActuatorController) (a : Actuator)
    (w : World) :
  fst (fst (command c a false w)) = true.
Proof.
  unfold command, turn_off, _set_gpio_state, GPIO_output, bind, ret,
    time_time.
  destruct (state_eqb (state a) OFF); simpl;
    [ | destruct (state_eqb (state a) ON && opt_truthy (runtime_start a));
        simpl ];
    destruct (gpio_initialized c); simpl;
    try destruct (output_raises w _); reflexivity.
Qed.

(** X7.  Switching off is never refused: [set_pump(False)],
    [set_chiller(False)] and [set_dehumidifier(False)] return [True] whatever
    the cycle timer and the water level, leave their actuator not ON, and do
    not touch the other two. *)
Theorem switch_off_never_refused (c : ActuatorController) (w : World) :
  (fst (fst (set_pump c false w)) = true /\
   state (pump (snd (fst (set_pump c false w)))) <> ON /\
   chiller (snd (fst (set_pump c false w))) = chiller c /\
   dehumidifier (snd (fst (set_pump c false w))) = dehumidifier c) /\
  (fst (fst (set_chiller c false w)) = true /\
   state (chiller (snd (fst (set_chiller c false w)))) <> ON /\
   pump (snd (fst (set_chiller c false w))) = pump c /\
   dehumidifier (snd (fst (set_chiller c false w))) = dehumidifier c) /\
  (fst (fst (set_dehumidifier c false w)) = true /\
   state (dehumidifier (snd (fst (set_dehumidifier c false w)))) <> ON /\
   pump (snd (fst (set_dehumidifier c false w))) = pump c /\
   chiller (snd (fst (set_dehumidifier c false w))) = chiller c).
Proof.
  rewrite set_pump_off, set_chiller_off, set_dehumidifier_off. simpl.
  repeat split; try apply command_off_succeeds; apply command_off_not_on.
Qed.

(** X5.  The safety sweep only ever acts on actuators that are ON: one that
    is OFF or in FAULT comes out of [check_safety] the same record, so the
    sweep never switches anything on. *)
Theorem sweep_leaves_idle_actuators (c : ActuatorController) (w : World) :
  (state (pump c) <> ON ->
   pump (snd (fst (check_safety c w))) = pump c) /\
  (state (chiller c) <> ON ->
   chiller (snd (fst (check_safety c w))) = chiller c) /\
  (state (dehumidifier c) <> ON ->
   dehumidifier (snd (fst (check_safety c w))) = dehumidifier c).
Proof.
  unfold check_safety, bind.
  destruct (sweep_pump true c w)
    as (c1 & w1 & -> & _ & _ & C1c & C1d & C1p).
  destruct (sweep_chiller
              (true && negb (fst (is_runtime_exceeded (pump c) w))) c1 w1)
    as (c2 & w2 & -> & _ & _ & C2p & C2d & C2c).
  destruct (sweep_dehumidifier
              (true && negb (fst (is_runtime_exceeded (pump c) w))
               && negb (fst (is_runtime_exceeded (chiller c1) w1))) c2 w2)
    as (c3 & w3 & -> & _ & _ & C3p & C3c & C3d).
  pose proof (check_water_level_keeps c3 w3) as (_ & Kp & Kc & Kd & _).
  destruct (check_water_level c3 w3) as [[lvl c4] w4]. cbn [fst snd] in *.
  rewrite C1c in C2c. rewrite C2d, C1d in C3d.
  assert (Hp : state (pump c) <> ON -> pump c4 = pump c).
  { intros H. rewrite Kp, C3p, C2p, C1p, not_on_not_exceeded by exact H.
    reflexivity. }
  assert (Hc : state (chiller c) <> ON -> chiller c4 = chiller c).
  { intros H. rewrite Kc, C3c, C2c, not_on_not_exceeded by exact H.
    reflexivity. }
  assert (Hd : state (dehumidifier c) <> ON ->
               dehumidifier c4 = dehumidifier c).
  { intros H. rewrite Kd, C3d, not_on_not_exceeded by exact H.
    reflexivity. }
  destruct lvl; cbn [negb]; unfold ret; cbn [fst snd].
  - auto.
  - destruct (state_eqb (state (pump c4)) ON) eqn:Es.
    + apply state_eqb_eq in Es. rewrite set_pump_off. cbn [fst snd].
      cbn [pump chiller dehumidifier with_pump].
      repeat split; auto.
      intros H. rewrite (Hp H) in Es. congruence.
    + cbn [fst snd]. auto.
Qed.

(** [turn_on] and [turn_off] only read the clock. *)
Lemma turn_on_world (a : Actuator) (w : World) :
  pin_level (snd (turn_on a w)) = pin_level w /\
  output_raises (snd (turn_on a w)) = output_raises w /\
  gpio_pin (snd (fst (turn_on a w))) = gpio_pin a /\
  active_low (snd (fst (turn_on a w))) = active_low a /\
  (fst (fst (turn_on a w)) = true -> state (snd (fst (turn_on a w))) = ON) /\
  (fst (fst (turn_on a w)) = false -> snd (fst (turn_on a w)) = a).
Proof.
  unfold turn_on, can_change_state, bind, ret, time_time.
  destruct (state_eqb (state a) ON) eqn:Es; simpl.
  - apply state_eqb_eq in Es. repeat split; auto.
  - destruct (Qle_bool _ _); simpl; repeat split; auto; discriminate.
Qed.

Lemma turn_off_world (a : Actuator) (w : World) :
  pin_level (snd (turn_off a w)) = pin_level w /\
  output_raises (snd (turn_off a w)) = output_raises w /\
  gpio_pin (snd (fst (turn_off a w))) = gpio_pin a /\
  active_low (snd (fst (turn_off a w))) = active_low a /\
  fst (fst (turn_off a w)) = true /\
  state (snd (fst (turn_off a w))) = OFF.
Proof.
  unfold turn_off, bind, ret, time_time.
  destruct (state_eqb (state a) OFF) eqn:Es; simpl.
  - apply state_eqb_eq in Es. repeat split; auto.
  - destruct (state_eqb (state a) ON && opt_truthy (runtime_start a));
      simpl; repeat split; auto.
Qed.

Lemma set_gpio_state_written (c : ActuatorController) (a : Actuator)
    (on : bool) (w : World) :
  gpio_initialized c = true ->
  output_raises w (gpio_pin a) = false ->
  fst (_set_gpio_state c a on w) = a /\
  pin_level (snd (_set_gpio_state c a on w)) (gpio_pin a)
  = xorb on (active_low a) /\
  forall p, p <> gpio_pin a ->
            pin_level (snd (_set_gpio_state c a on w)) p = pin_level w p.
Proof.
  intros Hi Hr. unfold _set_gpio_state, GPIO_output, bind, ret.
  rewrite Hi. simpl. rewrite Hr. simpl. rewrite Z.eqb_refl.
  repeat split.
  - destruct on, (active_low a); reflexivity.
  - intros p Hp. apply Z.eqb_neq in Hp. rewrite Hp. reflexivity.
Qed.

Lemma command_written (c : ActuatorController) (a : Actuator) (on : bool)
    (w : World) :
  gpio_initialized c = true ->
  output_raises w (gpio_pin a) = false ->
  (fst (fst (command c a on w)) = true ->
   state (snd (fst (command c a on w))) = (if on then ON else OFF) /\
   pin_level (snd (command c a on w)) (gpio_pin a)
   = xorb on (active_low a) /\
   forall p, p <> gpio_pin a ->
             pin_level (snd (command c a on w)) p = pin_level w p) /\
  (fst (fst (command c a on w)) = false ->
   snd (fst (command c a on w)) = a /\
   pin_level (snd (command c a on w)) = pin_level w).
Proof.
  intros Hi Hr. unfold command, bind.
  destruct on.
  - pose proof (turn_on_world a w) as (Wp & Wr & Wg & Wa & Won & Wno).
    destruct (turn_on a w) as [[ok a1] w1]. cbn [fst snd] in *.
    destruct ok.
    + assert (Hr1 : output_raises w1 (gpio_pin a1) = false)
        by (rewrite Wr, Wg; exact Hr).
      pose proof (set_gpio_state_written c a1 true w1 Hi Hr1)
        as (Sa & Sp & So).
      unfold bind, ret.
      destruct (_set_gpio_state c a1 true w1) as [a2 w2].
      cbn [fst snd] in *. subst a2. split; [ | discriminate ].
      intros _. rewrite <- Wg, <- Wa, <- Wp.
      repeat split; auto.
    + unfold ret. cbn [fst snd]. split; [ discriminate | ].
      intros _. split; auto.
  - pose proof (turn_off_world a w) as (Wp & Wr & Wg & Wa & Wok & Woff).
    destruct (turn_off a w) as [[ok a1] w1]. cbn [fst snd] in *.
    subst ok.
    assert (Hr1 : output_raises w1 (gpio_pin a1) = false)
      by (rewrite Wr, Wg; exact Hr).
    pose proof (set_gpio_state_written c a1 false w1 Hi Hr1)
      as (Sa & Sp & So).
    unfold bind, ret.
    destruct (_set_gpio_state c a1 false w1) as [a2 w2].
    cbn [fst snd] in *. subst a2. split; [ | discriminate ].
    intros _. rewrite <- Wg, <- Wa, <- Wp.
    repeat split; auto.
Qed.

(** X8.  On an initialised board whose write does not raise, a successful
    [set_chiller(on)] leaves the chiller ON or OFF as commanded and its pin
    at the level the polarity asks for (LOW to switch an active-low relay on,
    HIGH to switch it off), with every other pin as it was; a refused one
    leaves the chiller and every pin unchanged. *)
Theorem output_follows_command (c : ActuatorController) (on : bool)
    (w : World) :
  gpio_initialized c = true ->
  output_raises w (gpio_pin (chiller c)) = false ->
  (fst (fst (set_chiller c on w)) = true ->
   state (chiller (snd (fst (set_chiller c on w))))
   = (if on then ON else OFF) /\
   pin_level (snd (set_chiller c on w)) (gpio_pin (chiller c))
   = xorb on (active_low (chiller c)) /\
   forall p, p <> gpio_pin (chiller c) ->
             pin_level (snd (set_chiller c on w)) p = pin_level w p) /\
  (fst (fst (set_chiller c on w)) = false ->
   chiller (snd (fst (set_chiller c on w))) = chiller c /\
   pin_level (snd (set_chiller c on w)) = pin_level w).
Proof.
  intros Hi Hr.
  pose proof (command_written c (chiller c) on w Hi Hr) as [Hok Hno].
  unfold set_chiller, bind, ret.
  destruct (command c (chiller c) on w) as [[ok a1] w1].
  cbn [fst snd chiller with_chiller] in *. split; assumption.
Qed.

Lemma output_follows_command_witness :
  pin_level (snd (set_chiller (bank (world_at 100 true no_raise water_high))
                    true (world_at 100 true no_raise water_high)))
            27%Z = GPIO_LOW.
Proof.
  destruct (output_follows_command
              (bank (world_at 100 true no_raise water_high)) true
              (world_at 100 true no_raise water_high) eq_refl eq_refl)
    as [Hok _].
  destruct (Hok eq_refl) as (_ & Hpin & _). exact Hpin.
Defined.



Lemma drive_pin_same (w : World) (pin : Z) (v : bool) :
  pin_level (drive_pin w pin v) pin = v.
Proof. simpl. rewrite Z.eqb_refl. reflexivity. Qed.

(** X10.  Whatever the configuration, a new controller has three actuators
    that are OFF, never started and never cycled; it is initialised exactly
    when the GPIO library is present, and then the three output pins are
    driven HIGH, the released level of the active-low relays; without the
    library the world is untouched. *)
Theorem constructor_leaves_relays_released (config : Settings.Config)
    (w : World) :
  let c := fst (ActuatorController_init config w) in
  let w' := snd (ActuatorController_init config w) in
  gpio_initialized c = gpio_present w /\
  water_level_ok c = true /\ emergency_mode c = false /\
  (state (pump c) = OFF /\ runtime_start (pump c) = None /\
   cycle_count (pump c) = 0%nat) /\
  (state (chiller c) = OFF /\ runtime_start (chiller c) = None /\
   cycle_count (chiller c) = 0%nat) /\
  (state (dehumidifier c) = OFF /\ runtime_start (dehumidifier c) = None /\
   cycle_count (dehumidifier c) = 0%nat) /\
  (gpio_present w = true ->
   pin_level w' (gpio_pin (pump c)) = GPIO_HIGH /\
   pin_level w' (gpio_pin (chiller c)) = GPIO_HIGH /\
   pin_level w' (gpio_pin (dehumidifier c)) = GPIO_HIGH) /\
  (gpio_present w = false -> w' = w).
Proof.
  unfold ActuatorController_init, _initialize_gpio, GPIO_setup_out, bind,
    ret. simpl.
  destruct (gpio_present w) eqn:Eg; simpl.
  - do 6 (split; [ repeat split | ]). split; [ | discriminate ].
    intros _. split; [ | split ].
    + destruct (Z.eqb _ _); [ reflexivity | ].
      destruct (Z.eqb _ _); [ reflexivity | ].
      rewrite Z.eqb_refl. reflexivity.
    + destruct (Z.eqb _ _); [ reflexivity | ].
      rewrite Z.eqb_refl. reflexivity.
    + rewrite Z.eqb_refl. reflexivity.
  - do 6 (split; [ repeat split | ]). split; [ discriminate | ].
    intros _. destruct w. simpl in *. subst. reflexivity.
Qed.

Lemma command_simulated (c : ActuatorController) (a : Actuator) (on : bool)
    (w : World) :
  gpio_initialized c = false ->
  pin_level (snd (command c a on w)) = pin_level w /\
  (state (snd (fst (command c a on w))) = FAULT -> state a = FAULT).
Proof.
  intros Hi. unfold command, _set_gpio_state, bind, ret. rewrite Hi. simpl.
  destruct on.
  - pose proof (turn_on_world a w) as (Wp & _ & _ & _ & Won & Wno).
    destruct (turn_on a w) as [[ok a1] w1]. cbn [fst snd] in *.
    destruct ok; cbn [fst snd]; split; auto.
    + intros H. rewrite Won in H by reflexivity. discriminate.
    + intros H. rewrite Wno in H by reflexivity. exact H.
  - pose proof (turn_off_world a w) as (Wp & _ & _ & _ & Wok & Woff).
    destruct (turn_off a w) as [[ok a1] w1]. cbn [fst snd] in *.
    subst ok. cbn [fst snd]. split; auto.
    intros H. rewrite Woff in H. discriminate.
Qed.

(** X11.  In simulation mode ([gpio_initialized] false) the water level check
    always passes, no command drives a pin, and no command produces a FAULT
    that was not there before. *)
Theorem simulation_mode_is_inert (c : ActuatorController) (on : bool)
    (w : World) :
  gpio_initialized c = false ->
  fst (fst (check_water_level c w)) = true /\
  (pin_level (snd (set_pump c on w)) = pin_level w /\
   (state (pump (snd (fst (set_pump c on w)))) = FAULT ->
    state (pump c) = FAULT)) /\
  (pin_level (snd (set_chiller c on w)) = pin_level w /\
   (state (chiller (snd (fst (set_chiller c on w)))) = FAULT ->
    state (chiller c) = FAULT)) /\
  (pin_level (snd (set_dehumidifier c on w)) = pin_level w /\
   (state (dehumidifier (snd (fst (set_dehumidifier c on w)))) = FAULT ->
    state (dehumidifier c) = FAULT)).
Proof.
  intros Hi.
  assert (Hw : check_water_level c w = ((true, c), w)).
  { unfold check_water_level. rewrite Hi. reflexivity. }
  split; [ rewrite Hw; reflexivity | ]. split; [ | split ].
  - pose proof (command_simulated c (pump c) on w Hi) as [Hp Hf].
    unfold set_pump, bind, ret.
    destruct on; [ rewrite Hw | ]; cbn [fst snd andb negb];
      destruct (command c (pump c) _ w) as [[ok a1] w1];
      cbn [fst snd pump with_pump] in *; split; assumption.
  - pose proof (command_simulated c (chiller c) on w Hi) as [Hp Hf].
    unfold set_chiller, bind, ret.
    destruct (command c (chiller c) on w) as [[ok a1] w1].
    cbn [fst snd chiller with_chiller] in *. split; assumption.
  - pose proof (command_simulated c (dehumidifier c) on w Hi) as [Hp Hf].
    unfold set_dehumidifier, bind, ret.
    destruct (command c (dehumidifier c) on w) as [[ok a1] w1].
    cbn [fst snd dehumidifier with_dehumidifier] in *. split; assumption.
Qed.

Lemma simulation_mode_is_inert_witness :
  gpio_initialized simulated_bank = false /\
  fst (fst (check_water_level simulated_bank low_water_world)) = true.
Proof.
  split; [ reflexivity | ].
  exact (proj1 (simulation_mode_is_inert simulated_bank true low_water_world
                  eq_refl)).
Defined.

End ActuatorExtras.

(** * Further properties of the control engine *)

Module EngineExtras.
Import ControlEngine EngineSpec EngineTargets EngineScenarios EngineTheory.

Lemma deque_append_room {A : Type} (maxlen : nat) (d : list A) (x : A) :
  (length d < maxlen)%nat -> deque_append maxlen d x = d ++ [x].
Proof.
  intros H. unfold deque_append. rewrite length_app. simpl.
  replace (length d + 1 - maxlen)%nat with 0%nat by lia. reflexivity.
Qed.

Lemma deque_append_full {A : Type} (maxlen : nat) (d : list A) (x : A) :
  length d = maxlen -> (0 < maxlen)%nat ->
  deque_append maxlen d x = tl d ++ [x].
Proof.
  intros H Hpos. unfold deque_append. rewrite length_app. simpl.
  replace (length d + 1 - maxlen)%nat with 1%nat by lia.
  destruct d; simpl in *; [ lia | reflexivity ].
Qed.

Lemma deque_append_none {A : Type} (d : list A) (x : A) :
  (length d <= 0)%nat -> deque_append 0 d x = [].
Proof.
  intros H. destruct d; simpl in H; [ reflexivity | lia ].
Qed.

(** X13.  The histories are a ring buffer.  On aligned histories that hold
    at most [max_history] samples, [add_reading] keeps them aligned and
    within [max_history]; while there is room the new sample is appended to
    all three, stamped with the clock read; once they are full the oldest
    sample of each is dropped to make room. *)
Theorem add_reading_ring_buffer (e : Engine) (t h : Q) (w : World) :
  histories_aligned e ->
  (length (reading_history e) <= max_history e)%nat ->
  let e1 := fst (add_reading e t h w) in
  let r := mkReading t h (clock w (reads w)) in
  histories_aligned e1 /\
  (length (reading_history e1) <= max_history e)%nat /\
  ((length (reading_history e) < max_history e)%nat ->
   reading_history e1 = reading_history e ++ [r] /\
   temp_history e1 = temp_history e ++ [t] /\
   humidity_history e1 = humidity_history e ++ [h]) /\
  (length (reading_history e) = max_history e -> (0 < max_history e)%nat ->
   reading_history e1 = tl (reading_history e) ++ [r] /\
   temp_history e1 = tl (temp_history e) ++ [t] /\
   humidity_history e1 = tl (humidity_history e) ++ [h]).
Proof.
  intros Hal Hlen. destruct Hal as [Ht Hh]. simpl.
  split; [ apply (add_reading_aligned e t h w); split; assumption | ].
  split; [ rewrite length_deque_append; lia | ]. split.
  - intros Hroom. rewrite !deque_append_room by lia. auto.
  - intros Hfull Hpos. rewrite !deque_append_full by lia. auto.
Qed.

Lemma add_reading_ring_buffer_witness :
  reading_history (fst (add_reading (mango_engine 0) 11 88 (ticking [] 5)))
  = [mkReading 11 88 5].
Proof.
  destruct (add_reading_ring_buffer (mango_engine 0) 11 88 (ticking [] 5))
    as (_ & _ & Hroom & _).
  - apply init_aligned.
  - vm_compute. lia.
  - destruct Hroom as [Hr _]; [ vm_compute; lia | ]. exact Hr.
Defined.

(** [make_decision] on aligned histories, taken apart. *)
Lemma make_decision_run (e : Engine) (t h : Q) (w : World) :
  histories_aligned e ->
  let e1 := fst (add_reading e t h w) in
  let w1 := snd (add_reading e t h w) in
  exists temp_rate humidity_rate w3,
    fst (calculate_rate_of_change e1 (temp_history e1) 60 w1)
    = Ok temp_rate /\
    fst (calculate_rate_of_change e1 (humidity_history e1) 60
           (snd (calculate_rate_of_change e1 (temp_history e1) 60 w1)))
    = Ok humidity_rate /\
    make_decision e t h w =
    if Qlt_bool
         (from_option (Settings.emergency_shutdown_temp (safety_params e))
            15) t
    then
      ((Ok (fst (ControlDecision_init EMERGENCY true true false
                   (reason_emergency t
                      (from_option
                         (Settings.emergency_shutdown_temp (safety_params e))
                         15)) 10 w3)), e1),
       snd (ControlDecision_init EMERGENCY true true false
              (reason_emergency t
                 (from_option
                    (Settings.emergency_shutdown_temp (safety_params e))
                    15)) 10 w3))
    else
      ((Ok (fst (decide_rules e1 h temp_rate
                   (fst (assess_temperature e1 t temp_rate))
                   (snd (assess_temperature e1 t temp_rate))
                   (fst (assess_humidity e1 h humidity_rate))
                   (snd (assess_humidity e1 h humidity_rate)) w3)), e1),
       snd (decide_rules e1 h temp_rate
              (fst (assess_temperature e1 t temp_rate))
              (snd (assess_temperature e1 t temp_rate))
              (fst (assess_humidity e1 h humidity_rate))
              (snd (assess_humidity e1 h humidity_rate)) w3)).
Proof.
  intros Hal. unfold make_decision, bind.
  pose proof (add_reading_aligned e t h w Hal) as [Ht Hh].
  pose proof (add_reading_keeps e t h w) as (Hs & _).
  destruct (add_reading e t h w) as [e1 w1]. cbn [fst snd] in *.
  destruct (calculate_rate_no_raise e1 (temp_history e1) 60 w1 Ht)
    as [temp_rate Hr1].
  destruct (calculate_rate_of_change e1 (temp_history e1) 60 w1)
    as [r1 w2]. cbn [fst snd] in *. subst r1.
  destruct (calculate_rate_no_raise e1 (humidity_history e1) 60 w2 Hh)
    as [humidity_rate Hr2].
  destruct (calculate_rate_of_change e1 (humidity_history e1) 60 w2)
    as [r2 w3]. cbn [fst snd] in *. subst r2.
  exists temp_rate, humidity_rate, w3.
  split; [ reflexivity | ]. split; [ reflexivity | ].
  destruct (assess_temperature e1 t temp_rate) as [ta tu].
  destruct (assess_humidity e1 h humidity_rate) as [ha hu].
  rewrite Hs. cbn [fst snd].
  destruct (Qlt_bool _ t).
  - unfold ret.
    destruct (ControlDecision_init EMERGENCY true true false _ 10 w3).
    reflexivity.
  - unfold ret. destruct (decide_rules e1 h temp_rate ta tu ha hu w3).
    reflexivity.
Qed.

Lemma make_decision_engine (e : Engine) (t h : Q) (w : World) :
  snd (fst (make_decision e t h w)) = fst (add_reading e t h w).
Proof.
  unfold make_decision, bind.
  destruct (add_reading e t h w) as [e1 w1]. cbn [fst].
  destruct (calculate_rate_of_change e1 (temp_history e1) 60 w1)
    as [[tr|] w2]; [ | reflexivity ].
  destruct (calculate_rate_of_change e1 (humidity_history e1) 60 w2)
    as [[hr|] w3]; [ | reflexivity ].
  destruct (assess_temperature e1 t tr) as [ta tu].
  destruct (assess_humidity e1 h hr) as [ha hu].
  destruct (Qlt_bool _ t); unfold ret.
  - destruct (ControlDecision_init EMERGENCY true true false _ 10 w3).
    reflexivity.
  - destruct (decide_rules e1 h tr ta tu ha hu w3). reflexivity.
Qed.

(** X14.  Deciding does not execute: whatever it returns or raises,
    [make_decision] leaves the engine exactly as [add_reading] alone would,
    so the current mode, the last decision, the mode timers, the spray timer,
    the counters and the targets are as before. *)
Theorem make_decision_only_adds_reading (e : Engine) (t h : Q) (w : World) :
  let e' := snd (fst (make_decision e t h w)) in
  e' = fst (add_reading e t h w) /\
  current_mode e' = current_mode e /\
  last_decision e' = last_decision e /\
  last_mode_change e' = last_mode_change e /\
  spray_last_activated e' = spray_last_activated e /\
  decisions_made e' = decisions_made e /\
  mode_durations e' = mode_durations e /\
  temp_target e' = temp_target e /\
  humidity_target e' = humidity_target e.
Proof.
  cbv zeta. rewrite make_decision_engine.
  split; [ reflexivity | ]. simpl. repeat split.
Qed.

Ltac split_ifs :=
  repeat match goal with
         | |- context [if ?b then _ else _] => destruct b eqn:?
         end.

Lemma assess_temperature_range (e : Engine) (t : Q) (rate : option Q) :
  (0 <= snd (assess_temperature e t rate) <= 10)%Z.
Proof. unfold assess_temperature. split_ifs; simpl; lia. Qed.

Lemma assess_humidity_range (e : Engine) (h : Q) (rate : option Q) :
  (0 <= snd (assess_humidity e h rate) <= 10)%Z.
Proof. unfold assess_humidity. split_ifs; simpl; lia. Qed.

Lemma decide_rules_well_formed (e : Engine) (h : Q) (rate : option Q)
    (ta ha : Assessment) (tu hu : Z) (w : World) :
  (0 <= tu <= 10)%Z -> (0 <= hu <= 10)%Z ->
  let d := fst (decide_rules e h rate ta tu ha hu w) in
  (0 <= priority d <= 10)%Z /\
  (pump d, chiller d, dehumidifier d) = flags_of (mode d) /\
  mode d <> EMERGENCY.
Proof.
  intros Htu Hhu.
  unfold decide_rules, ControlDecision_init, can_spray_now, bind, ret,
    time_time.
  destruct (8 <=? tu)%Z.
  { destruct (Qlt_bool h (humidity_max e)); simpl;
      repeat split; try lia; discriminate. }
  destruct (7 <=? hu)%Z.
  { destruct (3 <? tu)%Z; simpl; repeat split; try lia; discriminate. }
  destruct ((4 <=? tu)%Z && Qlt_bool h (humidity_max e - 5)); simpl.
  - destruct (Qle_bool _ _); simpl.
    + repeat split; try lia; discriminate.
    + destruct ((3 <=? tu)%Z && (3 <=? hu)%Z); simpl.
      * repeat split; try lia; discriminate.
      * destruct rate as [r|]; simpl.
        -- destruct (Qlt_bool (temp_rate_warning e) r
                     && Qlt_bool h (humidity_max e - 3)); simpl;
             repeat split; try lia; discriminate.
        -- repeat split; try lia; discriminate.
  - destruct ((3 <=? tu)%Z && (3 <=? hu)%Z); simpl.
    + repeat split; try lia; discriminate.
    + destruct rate as [r|]; simpl.
      * destruct (Qlt_bool (temp_rate_warning e) r
                  && Qlt_bool h (humidity_max e - 3)); simpl;
          repeat split; try lia; discriminate.
      * repeat split; try lia; discriminate.
Qed.

(** X15.  On aligned histories [make_decision] always returns a decision;
    its priority lies between 0 and 10, its three actuator targets are the
    ones its mode stands for, and the mode is EMERGENCY exactly when the
    temperature is above the emergency shutdown temperature. *)
Theorem decision_well_formed (e : Engine) (t h : Q) (w : World) :
  histories_aligned e ->
  exists d,
    fst (fst (make_decision e t h w)) = Ok d /\
    (0 <= priority d <= 10)%Z /\
    (pump d, chiller d, dehumidifier d) = flags_of (mode d) /\
    (mode d = EMERGENCY <->
     from_option (Settings.emergency_shutdown_temp (safety_params e)) 15
     < t).
Proof.
  intros Hal.
  destruct (make_decision_run e t h w Hal)
    as (tr & hr & w3 & _ & _ & Hrun).
  rewrite Hrun. clear Hrun.
  destruct (Qlt_bool _ t) eqn:Eem.
  - eexists. split; [ reflexivity | ]. simpl.
    apply Qlt_bool_iff in Eem. repeat split; try lia; auto.
  - eexists. split; [ reflexivity | ]. cbn [fst].
    pose proof (decide_rules_well_formed
                  (fst (add_reading e t h w)) h tr
                  (fst (assess_temperature (fst (add_reading e t h w)) t tr))
                  (fst (assess_humidity (fst (add_reading e t h w)) h hr))
                  _ _ w3
                  (assess_temperature_range (fst (add_reading e t h w)) t tr)
                  (assess_humidity_range (fst (add_reading e t h w)) h hr))
      as (Hp & Hf & Hm).
    split; [ exact Hp | ]. split; [ exact Hf | ].
    apply Qlt_bool_false_iff in Eem. split.
    + intros H. contradiction.
    + intros H. exfalso. apply (Qlt_not_le _ _ H Eem).
Qed.

Lemma decision_well_formed_witness :
  exists d,
    fst (fst (make_decision (mango_engine 0) 11 88 (ticking [] 100))) = Ok d /\
    (0 <= priority d <= 10)%Z.
Proof.
  destruct (decision_well_formed (mango_engine 0) 11 88 (ticking [] 100))
    as (d & Hd & Hp & _).
  - apply init_aligned.
  - exists d. split; assumption.
Defined.

Lemma rate_none_on_short (e : Engine) (values : list Q) (tw : Q) (w : World) :
  (length values < 2)%nat ->
  calculate_rate_of_change e values tw w = (Ok None, w).
Proof.
  intros H. unfold calculate_rate_of_change.
  apply Nat.ltb_lt in H. rewrite H. reflexivity.
Qed.

Lemma first_append_short {A : Type} (maxlen : nat) (x : A) :
  (length (deque_append maxlen [] x) < 2)%nat.
Proof. destruct maxlen; simpl; lia. Qed.

Lemma assess_temperature_in_band (e : Engine) (t : Q) :
  temp_min e <= t -> t <= temp_max e ->
  temp_target e - temp_hysteresis e <= t ->
  t <= temp_target e + temp_hysteresis e ->
  assess_temperature e t None = (optimal, 0%Z).
Proof.
  intros Hmin Hmax Hlo Hhi. unfold assess_temperature.
  rewrite (proj2 (Qlt_bool_false_iff (temp_max e + 2) t)) by lra.
  rewrite (proj2 (Qlt_bool_false_iff (temp_max e) t)) by lra.
  rewrite (proj2 (Qlt_bool_false_iff _ t) Hhi).
  rewrite (proj2 (Qlt_bool_false_iff t (temp_min e)) Hmin).
  rewrite (proj2 (Qlt_bool_false_iff t _) Hlo).
  reflexivity.
Qed.

Lemma assess_humidity_in_band (e : Engine) (h : Q) :
  humidity_min e <= h -> h <= humidity_max e ->
  humidity_target e - humidity_hysteresis e <= h ->
  h <= humidity_target e + humidity_hysteresis e ->
  assess_humidity e h None = (optimal, 0%Z).
Proof.
  intros Hmin Hmax Hlo Hhi. unfold assess_humidity.
  rewrite (proj2 (Qlt_bool_false_iff (humidity_max e + 5) h)) by lra.
  rewrite (proj2 (Qlt_bool_false_iff (humidity_max e) h)) by lra.
  rewrite (proj2 (Qlt_bool_false_iff _ h) Hhi).
  rewrite (proj2 (Qlt_bool_false_iff h (humidity_min e)) Hmin).
  rewrite (proj2 (Qlt_bool_false_iff h _) Hlo).
  reflexivity.
Qed.

(** X16.  The first reading of an engine, when temperature and humidity lie
    inside their hysteresis bands and inside their minimum and maximum, and
    the temperature is not above the emergency temperature, gives IDLE: all
    three actuators off, priority 0. *)
Theorem first_reading_in_band_is_idle (e : Engine) (t h : Q) (w : World) :
  reading_history e = [] -> temp_history e = [] ->
  humidity_history e = [] ->
  temp_min e <= t -> t <= temp_max e ->
  temp_target e - temp_hysteresis e <= t ->
  t <= temp_target e + temp_hysteresis e ->
  humidity_min e <= h -> h <= humidity_max e ->
  humidity_target e - humidity_hysteresis e <= h ->
  h <= humidity_target e + humidity_hysteresis e ->
  t <= from_option (Settings.emergency_shutdown_temp (safety_params e)) 15 ->
  exists d,
    fst (fst (make_decision e t h w)) = Ok d /\
    mode d = IDLE /\ pump d = false /\ chiller d = false /\
    dehumidifier d = false /\ priority d = 0%Z /\
    reason d = reason_optimal optimal optimal.
Proof.
  intros Hr Ht Hh T1 T2 T3 T4 H1 H2 H3 H4 Hem.
  assert (Hal : histories_aligned e).
  { unfold histories_aligned. rewrite Hr, Ht, Hh. split; reflexivity. }
  destruct (make_decision_run e t h w Hal)
    as (tr & hr & w3 & Etr & Ehr & Hrun).
  rewrite Hrun. clear Hrun.
  rewrite rate_none_on_short in Etr
    by (simpl; rewrite Ht; apply first_append_short).
  rewrite rate_none_on_short in Ehr
    by (simpl; rewrite Hh; apply first_append_short).
  cbn [fst] in Etr, Ehr. injection Etr as <-. injection Ehr as <-.
  rewrite (proj2 (Qlt_bool_false_iff _ t) Hem).
  rewrite (assess_temperature_in_band (fst (add_reading e t h w)) t)
    by assumption.
  rewrite (assess_humidity_in_band (fst (add_reading e t h w)) h)
    by assumption.
  eexists. split; [ reflexivity | ]. repeat split.
Qed.

Lemma first_reading_in_band_is_idle_witness :
  exists d,
    fst (fst (make_decision (mango_engine 0) 11 (875 # 10)
                (ticking [] 100))) = Ok d /\
    mode d = IDLE /\ priority d = 0%Z.
Proof.
  destruct (first_reading_in_band_is_idle (mango_engine 0) 11 (875 # 10)
              (ticking [] 100))
    as (d & Hd & Hm & _ & _ & _ & Hp & _);
    try reflexivity; try (vm_compute; discriminate).
  exists d. repeat split; assumption.
Defined.

(** X17.  The critical-heat rule: a temperature above [temp_max] (and not
    above the emergency temperature) always runs the chiller, with priority
    at least 8; under the humidity maximum the mode is CHILLER with the pump,
    at or above it COOL_AND_DEHUMIDIFY with the dehumidifier instead of the
    pump. *)
Theorem critical_heat_runs_chiller (e : Engine) (t h : Q) (w : World) :
  histories_aligned e ->
  temp_max e < t ->
  t <= from_option (Settings.emergency_shutdown_temp (safety_params e)) 15 ->
  exists d,
    fst (fst (make_decision e t h w)) = Ok d /\
    chiller d = true /\ (8 <= priority d <= 10)%Z /\
    (h < humidity_max e ->
     mode d = CHILLER /\ pump d = true /\ dehumidifier d = false) /\
    (humidity_max e <= h ->
     mode d = COOL_AND_DEHUMIDIFY /\ pump d = false /\
     dehumidifier d = true).
Proof.
  intros Hal Hhot Hem.
  destruct (make_decision_run e t h w Hal)
    as (tr & hr & w3 & _ & _ & Hrun).
  rewrite Hrun. clear Hrun.
  rewrite (proj2 (Qlt_bool_false_iff _ t) Hem).
  set (e1 := fst (add_reading e t h w)).
  pose proof (assess_humidity_range e1 h hr) as Hhu.
  assert (Htu : snd (assess_temperature e1 t tr) = 10%Z \/
                snd (assess_temperature e1 t tr) = 8%Z).
  { unfold assess_temperature.
    change (temp_max e1) with (temp_max e).
    rewrite (proj2 (Qlt_bool_iff (temp_max e) t) Hhot).
    destruct (Qlt_bool (temp_max e + 2) t); simpl; auto. }
  change (humidity_max e) with (humidity_max e1).
  eexists. split; [ reflexivity | ].
  unfold decide_rules, ControlDecision_init, bind, ret, time_time.
  destruct Htu as [-> | ->]; simpl (_ <=? _)%Z; cbv iota;
    destruct (Qlt_bool h (humidity_max e1)) eqn:Eh; simpl;
    (apply Qlt_bool_iff in Eh || apply Qlt_bool_false_iff in Eh);
    repeat split; try lia; try reflexivity;
    exfalso; change (humidity_max e1) with (humidity_max e) in Eh; lra.
Qed.

Lemma critical_heat_runs_chiller_witness :
  exists d,
    fst (fst (make_decision (mango_engine 0) (145 # 10) 92
                (ticking [] 100))) = Ok d /\
    mode d = COOL_AND_DEHUMIDIFY /\ pump d = false.
Proof.
  destruct (critical_heat_runs_chiller (mango_engine 0) (145 # 10) 92
              (ticking [] 100))
    as (d & Hd & _ & _ & _ & Hwet).
  - apply init_aligned.
  - reflexivity.
  - vm_compute. discriminate.
  - destruct Hwet as (Hm & Hp & _); [ vm_compute; discriminate | ].
    exists d. repeat split; assumption.
Defined.

(** X18.  Executing a decision with the pump on restarts the spray cooldown
    from the clock read of that call: [can_spray_now] is then false until
    [spray_cooldown] seconds have passed since it, and true from then on.  A
    decision without the pump leaves the spray timer alone. *)
Theorem pump_decision_restarts_cooldown (e : Engine) (d : ControlDecision)
    (w w2 : World) :
  let e' := fst (execute_decision e d w) in
  let cooldown :=
    from_option (Settings.spray_cooldown (actuator_params e)) 30 in
  (pump d = false -> spray_last_activated e' = spray_last_activated e) /\
  (pump d = true ->
   spray_last_activated e'
   = clock w (if mode_eqb (current_mode e) (mode d)
              then reads w else S (S (reads w))) /\
   (clock w2 (reads w2) - spray_last_activated e' < cooldown ->
    fst (can_spray_now e' w2) = false) /\
   (cooldown <= clock w2 (reads w2) - spray_last_activated e' ->
    fst (can_spray_now e' w2) = true)).
Proof.
  unfold execute_decision, can_spray_now, bind, ret, time_time.
  destruct (mode_eqb (current_mode e) (mode d)); simpl;
    destruct (pump d); simpl; (split; [ intros H; try discriminate; auto | ]);
    intros H; try discriminate;
    (split; [ reflexivity | ]); split; intros Hc.
  - apply Qle_bool_false_iff. exact Hc.
  - apply Qle_bool_iff. exact Hc.
  - apply Qle_bool_false_iff. exact Hc.
  - apply Qle_bool_iff. exact Hc.
Qed.

Lemma execute_decision_records (e : Engine) (d : ControlDecision)
    (w : World) :
  current_mode (fst (execute_decision e d w)) = mode d /\
  last_decision (fst (execute_decision e d w)) = Some d /\
  decisions_made (fst (execute_decision e d w)) = S (decisions_made e).
Proof.
  unfold execute_decision, bind, ret, time_time.
  destruct (negb _); destruct (pump d); simpl; auto.
Qed.

Lemma make_decision_total (e : Engine) (t h : Q) (w : World) :
  histories_aligned e ->
  exists d, fst (fst (make_decision e t h w)) = Ok d.
Proof.
  intros Hal.
  destruct (make_decision_run e t h w Hal) as (tr & hr & w3 & _ & _ & Hrun).
  rewrite Hrun. destruct (Qlt_bool _ t); eexists; reflexivity.
Qed.

(** X19.  [execute_decision] always records the decision, its mode and one
    more decision made.  With the mode unchanged no timer moves; on a change
    only the counter of the outgoing mode grows, by the time from
    [last_mode_change] to the first clock read, and [last_mode_change] takes
    the second read. *)
Theorem execute_decision_accrues_outgoing_mode (e : Engine)
    (d : ControlDecision) (w : World) :
  let e' := fst (execute_decision e d w) in
  current_mode e' = mode d /\ last_decision e' = Some d /\
  decisions_made e' = S (decisions_made e) /\
  (mode d = current_mode e ->
   mode_durations e' = mode_durations e /\
   last_mode_change e' = last_mode_change e) /\
  (mode d <> current_mode e ->
   mode_durations e' (current_mode e)
   = mode_durations e (current_mode e)
     + (clock w (reads w) - last_mode_change e) /\
   (forall m, m <> current_mode e ->
              mode_durations e' m = mode_durations e m) /\
   last_mode_change e' = clock w (S (reads w))).
Proof.
  unfold execute_decision, bind, ret, time_time.
  destruct (mode_eqb (current_mode e) (mode d)) eqn:Em; simpl.
  - apply mode_eqb_eq in Em.
    destruct (pump d); simpl; repeat split; auto; congruence.
  - assert (Hne : mode d <> current_mode e).
    { intros H. rewrite H in Em.
      destruct (current_mode e); discriminate. }
    destruct (pump d); simpl; repeat split; auto; try congruence;
      unfold add_duration;
      try (assert (Hs : mode_eqb (current_mode e) (current_mode e) = true)
             by (apply mode_eqb_eq; reflexivity); rewrite Hs; reflexivity);
      intros m Hm;
      destruct (mode_eqb m (current_mode e)) eqn:E; auto;
      apply mode_eqb_eq in E; congruence.
Qed.

Lemma execute_decision_keeps (e : Engine) (d : ControlDecision) (w : World) :
  reading_history (fst (execute_decision e d w)) = reading_history e /\
  temp_history (fst (execute_decision e d w)) = temp_history e /\
  humidity_history (fst (execute_decision e d w)) = humidity_history e /\
  temp_target (fst (execute_decision e d w)) = temp_target e /\
  humidity_target (fst (execute_decision e d w)) = humidity_target e.
Proof.
  unfold execute_decision, bind, ret, time_time.
  destruct (negb _); destruct (pump d); simpl; auto.
Qed.

Lemma execute_all_app (e : Engine) (calls more : list (ControlDecision * World)) :
  execute_all e (calls ++ more) = execute_all (execute_all e calls) more.
Proof.
  revert e. induction calls as [| [d w] rest IH]; intros e; simpl.
  - reflexivity.
  - apply IH.
Qed.

(** X20.  Over any run of [execute_decision] calls the decision counter
    grows by the number of calls, the histories and the targets are
    untouched, and the engine is in the mode of the decision executed
    last. *)
Theorem execute_all_counts (e : Engine)
    (calls : list (ControlDecision * World)) :
  decisions_made (execute_all e calls)
  = (decisions_made e + length calls)%nat /\
  reading_history (execute_all e calls) = reading_history e /\
  temp_target (execute_all e calls) = temp_target e /\
  humidity_target (execute_all e calls) = humidity_target e /\
  forall (d : ControlDecision) (w : World),
    current_mode (execute_all e (calls ++ [(d, w)])) = mode d /\
    last_decision (execute_all e (calls ++ [(d, w)])) = Some d.
Proof.
  split; [ | split; [ | split; [ | split ] ] ].
  - revert e. induction calls as [| [d w] rest IH]; intros e; simpl.
    + lia.
    + rewrite IH.
      destruct (execute_decision_records e d w) as (_ & _ & Hc).
      rewrite Hc. lia.
  - revert e. induction calls as [| [d w] rest IH]; intros e; simpl.
    + reflexivity.
    + rewrite IH. apply execute_decision_keeps.
  - revert e. induction calls as [| [d w] rest IH]; intros e; simpl.
    + reflexivity.
    + rewrite IH. apply execute_decision_keeps.
  - revert e. induction calls as [| [d w] rest IH]; intros e; simpl.
    + reflexivity.
    + rewrite IH. apply execute_decision_keeps.
  - intros d w. rewrite execute_all_app. simpl.
    destruct (execute_decision_records (execute_all e calls) d w)
      as (Hm & Hd & _).
    split; assumption.
Qed.

(** X21.  [get_statistics] lists every mode once, in declaration order.  When
    no time has been accounted (total not positive) every percentage is 0
    rather than a division by zero; when the total is positive and the two
    clock reads of the call agree, the percentages add up to 100. *)
Theorem statistics_percentages (e : Engine) (w : World) :
  let stats := stat_mode_statistics (fst (get_statistics e w)) in
  let total := sum_durations (mode_durations e)
               + (clock w (reads w) - last_mode_change e) in
  map fst stats = all_modes /\
  (total <= 0 -> forall entry, In entry stats -> snd (snd entry) = 0) /\
  (0 < total -> clock w (S (reads w)) == clock w (reads w) ->
   total_percentage stats == 100).
Proof.
  unfold get_statistics, all_modes. cbn [mode_percentages].
  unfold bind, ret, time_time. cbn [fst snd clock reads].
  set (total := sum_durations (mode_durations e)
                + (clock w (reads w) - last_mode_change e)).
  split; [ | split ].
  - destruct (current_mode e); reflexivity.
  - intros Hz. apply Qlt_bool_false_iff in Hz. rewrite Hz.
    destruct (current_mode e); simpl;
      intros entry Hin;
      repeat (destruct Hin as [<- | Hin]; [ reflexivity | ]);
      contradiction.
  - intros Hpos Hsame. pose proof Hpos as Hb.
    apply Qlt_bool_iff in Hb. rewrite Hb.
    assert (Hnz : ~ total == 0) by lra.
    assert (Htot : total == mode_durations e IDLE
                   + mode_durations e EVAPORATIVE + mode_durations e CHILLER
                   + mode_durations e DEHUMIDIFY
                   + mode_durations e COOL_AND_DEHUMIDIFY
                   + mode_durations e EMERGENCY
                   + (clock w (reads w) - last_mode_change e)).
    { unfold total, sum_durations, all_modes. simpl. ring. }
    destruct (current_mode e); simpl;
      unfold total_percentage; simpl; rewrite Hsame;
      (transitivity ((mode_durations e IDLE
                      + mode_durations e EVAPORATIVE
                      + mode_durations e CHILLER
                      + mode_durations e DEHUMIDIFY
                      + mode_durations e COOL_AND_DEHUMIDIFY
                      + mode_durations e EMERGENCY
                      + (clock w (reads w) - last_mode_change e))
                     / total * 100);
       [ field; exact Hnz | rewrite <- Htot; field; exact Hnz ]).
Qed.

(** The error functions have a dead band: each returns either exactly 0 or
    the plain deviation from the target, and in the second case the
    deviation is at least the hysteresis in magnitude. *)
Lemma errors_have_a_dead_band (e : Engine) (t h : Q) :
  (calculate_temp_error e t = 0 \/
   (calculate_temp_error e t = t - temp_target e /\
    temp_hysteresis e <= Qabs (calculate_temp_error e t))) /\
  (calculate_humidity_error e h = 0 \/
   (calculate_humidity_error e h = h - humidity_target e /\
    humidity_hysteresis e <= Qabs (calculate_humidity_error e h))).
Proof.
  unfold calculate_temp_error, calculate_humidity_error. split.
  - destruct (Qlt_bool _ (temp_hysteresis e)) eqn:E; [ left; reflexivity | ].
    right. split; [ reflexivity | ]. apply Qlt_bool_false_iff. exact E.
  - destruct (Qlt_bool _ (humidity_hysteresis e)) eqn:E;
      [ left; reflexivity | ].
    right. split; [ reflexivity | ]. apply Qlt_bool_false_iff. exact E.
Qed.


(** X24.  With exactly two samples inside the window and at least a second
    apart, [calculate_rate_of_change] returns (older minus newer) over the
    time between them, per minute: the value it returns is negative for a
    rising series and positive for a falling one. *)
Theorem two_sample_rate_sign (e : Engine) (w : World)
    (old new : SensorReading) (v_old v_new tw : Q) :
  reading_history e = [old; new] ->
  clock w (reads w) - timestamp old <= tw ->
  clock w (reads w) - timestamp new <= tw ->
  1 <= timestamp new - timestamp old ->
  exists r,
    fst (calculate_rate_of_change e [v_old; v_new] tw w) = Ok (Some r) /\
    r == (v_old - v_new) / (timestamp new - timestamp old) * 60 /\
    (v_old < v_new -> r < 0) /\
    (v_new < v_old -> 0 < r).
Proof.
  intros Hh Ho Hn Hsp.
  destruct (two_sample_rate e w old new v_old v_new tw Hh Ho Hn Hsp)
    as (r & Hr & Heq).
  exists r. split; [ exact Hr | ]. split; [ exact Heq | ].
  assert (Hinv : 0 < / (timestamp new - timestamp old))
    by (apply Qinv_lt_0_compat; lra).
  unfold Qdiv in Heq.
  set (k := / (timestamp new - timestamp old)) in *.
  split; intros Hv; rewrite Heq.
  - assert (H : (v_new - v_old) * k > 0)
      by (apply Qmult_lt_0_compat; lra). lra.
  - assert (H : (v_old - v_new) * k > 0)
      by (apply Qmult_lt_0_compat; lra). lra.
Qed.

Lemma two_sample_rate_sign_witness :
  exists r,
    fst (calculate_rate_of_change (fst rising_samples) [10; 11] 60
           (snd rising_samples)) = Ok (Some r) /\
    r < 0.
Proof.
  destruct (two_sample_rate_sign (fst rising_samples) (snd rising_samples)
              (mkReading 10 80 0) (mkReading 11 80 30) 10 11 60)
    as (r & Hr & _ & Hneg & _).
  - reflexivity.
  - vm_compute. discriminate.
  - vm_compute. discriminate.
  - vm_compute. discriminate.
  - exists r. split; [ exact Hr | ]. apply Hneg. reflexivity.
Defined.

Lemma total_gap_nonneg (e : Engine)
    (calls : list (ControlDecision * World)) :
  Forall (fun c => clock (snd c) (reads (snd c))
                   <= clock (snd c) (S (reads (snd c)))) calls ->
  0 <= total_gap e calls.
Proof.
  intros Hall. revert e.
  induction Hall as [| [d w] rest Hread _ IH]; intros e; simpl.
  - lra.
  - specialize (IH (fst (execute_decision e d w))).
    unfold read_gap. simpl in Hread.
    destruct (mode_eqb (current_mode e) (mode d)); lra.
Qed.

(** X25.  From construction on, over any run of [execute_decision] calls
    whose two clock reads do not go backwards, the time booked to the modes
    plus the running stretch of the current mode never exceeds the time that
    has passed since construction; it falls short of it by exactly the time
    between the two reads of the calls that changed the mode. *)
Theorem accounting_never_exceeds_elapsed (config : Settings.Config)
    (w0 : World) (calls : list (ControlDecision * World)) (now : Q) :
  Forall (fun c => clock (snd c) (reads (snd c))
                   <= clock (snd c) (S (reads (snd c)))) calls ->
  let e := execute_all (fst (HybridControlEngine_init config w0)) calls in
  accounted e now
  == now - clock w0 (reads w0)
     - total_gap (fst (HybridControlEngine_init config w0)) calls /\
  accounted e now <= now - clock w0 (reads w0).
Proof.
  intros Hall. cbv zeta.
  pose proof (total_gap_nonneg (fst (HybridControlEngine_init config w0))
                calls Hall) as Hgap.
  pose proof (accounting_with_gaps
                (fst (HybridControlEngine_init config w0)) calls now) as Hacc.
  rewrite accounted_at_construction in Hacc.
  split; [ exact Hacc | ]. rewrite Hacc. lra.
Qed.

Lemma accounting_never_exceeds_elapsed_witness :
  accounted (execute_all (mango_engine 0)
               [(evaporative_decision, ticking [10; 11] 11)]) 20
  <= 20 - 0.
Proof.
  apply (accounting_never_exceeds_elapsed Settings.get_config_dict
           (ticking [] 0) [(evaporative_decision, ticking [10; 11] 11)] 20).
  constructor; [ vm_compute; discriminate | constructor ].
Defined.

End EngineExtras.

(** * The sensor: checksum, conversion and validation *)

Module SensorTheory.
Import Sensors.

Lemma crc_byte_range (crc byte : Z) : is_byte (crc_byte crc byte).
Proof.
  unfold is_byte, crc_byte. change 255%Z with (Z.ones 8).
  rewrite Z.land_ones by lia. apply Z.mod_pos_bound. reflexivity.
Qed.

Lemma crc_fold_range (data : list Z) :
  forall c, is_byte c -> is_byte (fold_left crc_byte data c).
Proof.
  induction data as [| b rest IH]; intros c Hc; simpl.
  - exact Hc.
  - apply IH. apply crc_byte_range.
Qed.

(** X26.  [_calculate_crc] returns a byte, and a message followed by its own
    checksum has checksum 0. *)
Theorem crc_checks_itself (data : list Z) :
  (0 <= _calculate_crc data < 256)%Z /\
  _calculate_crc (data ++ [_calculate_crc data]) = 0%Z.
Proof.
  split.
  - apply crc_fold_range. unfold is_byte. lia.
  - unfold _calculate_crc. rewrite fold_left_app. simpl.
    unfold crc_byte at 1. rewrite Z.lxor_nilpotent. reflexivity.
Qed.

Lemma byte_listed (b : Z) : is_byte b -> In b all_bytes.
Proof.
  intros [Hlo Hhi]. unfold all_bytes.
  rewrite <- (Z2Nat.id b) by exact Hlo.
  apply in_map. apply in_seq. lia.
Qed.

Lemma bytes_checked (P : Z -> Z -> bool) :
  forallb (fun x => forallb (P x) all_bytes) all_bytes = true ->
  forall x y, is_byte x -> is_byte y -> P x y = true.
Proof.
  intros H x y Hx Hy.
  rewrite forallb_forall in H. specialize (H x (byte_listed x Hx)).
  rewrite forallb_forall in H. exact (H y (byte_listed y Hy)).
Qed.

Lemma lxor_byte (x y : Z) : is_byte x -> is_byte y -> is_byte (Z.lxor x y).
Proof.
  intros Hx Hy.
  assert (H : (0 <=? Z.lxor x y)%Z && (Z.lxor x y <? 256)%Z = true).
  { apply (bytes_checked
             (fun a b => (0 <=? Z.lxor a b)%Z && (Z.lxor a b <? 256)%Z));
      [ vm_compute; reflexivity | assumption | assumption ]. }
  apply andb_true_iff in H. destruct H as [H1 H2].
  apply Z.leb_le in H1. apply Z.ltb_lt in H2. split; assumption.
Qed.

Lemma shift_out_injective (x y : Z) :
  is_byte x -> is_byte y ->
  Z.land (Nat.iter 8 crc_shift x) 255 = Z.land (Nat.iter 8 crc_shift y) 255 ->
  x = y.
Proof.
  intros Hx Hy Heq.
  assert (H : implb (Z.land (Nat.iter 8 crc_shift x) 255
                     =? Z.land (Nat.iter 8 crc_shift y) 255)%Z
                    (x =? y)%Z = true).
  { apply (bytes_checked
             (fun a b => implb (Z.land (Nat.iter 8 crc_shift a) 255
                                =? Z.land (Nat.iter 8 crc_shift b) 255)%Z
                               (a =? b)%Z));
      [ vm_compute; reflexivity | assumption | assumption ]. }
  rewrite Heq, Z.eqb_refl in H. simpl in H. apply Z.eqb_eq. exact H.
Qed.

Lemma crc_byte_separates_states (c c' b : Z) :
  is_byte c -> is_byte c' -> is_byte b -> c <> c' ->
  crc_byte c b <> crc_byte c' b.
Proof.
  intros Hc Hc' Hb Hne Heq. unfold crc_byte in Heq.
  apply shift_out_injective in Heq; try (apply lxor_byte; assumption).
  apply Hne.
  assert (H : Z.lxor (Z.lxor c b) b = Z.lxor (Z.lxor c' b) b)
    by (rewrite Heq; reflexivity).
  rewrite !Z.lxor_assoc, Z.lxor_nilpotent, !Z.lxor_0_r in H. exact H.
Qed.

Lemma crc_byte_separates_bytes (c b b' : Z) :
  is_byte c -> is_byte b -> is_byte b' -> b <> b' ->
  crc_byte c b <> crc_byte c b'.
Proof.
  intros Hc Hb Hb' Hne Heq. unfold crc_byte in Heq.
  apply shift_out_injective in Heq; try (apply lxor_byte; assumption).
  apply Hne.
  assert (H : Z.lxor c (Z.lxor c b) = Z.lxor c (Z.lxor c b'))
    by (rewrite Heq; reflexivity).
  rewrite <- !Z.lxor_assoc, Z.lxor_nilpotent, !Z.lxor_0_l in H. exact H.
Qed.

Lemma crc_fold_separates (post : list Z) :
  Forall is_byte post ->
  forall c c', is_byte c -> is_byte c' -> c <> c' ->
               fold_left crc_byte post c <> fold_left crc_byte post c'.
Proof.
  induction 1 as [| p rest Hp _ IH]; intros c c' Hc Hc' Hne; simpl.
  - exact Hne.
  - apply IH; try apply crc_byte_range.
    apply crc_byte_separates_states; assumption.
Qed.

(** X27.  [_calculate_crc] tells apart any two messages of bytes that differ
    in exactly one byte, whatever stands before and after it: no single
    corrupted byte of a measurement passes the check of [read]. *)
Theorem crc_detects_single_byte_change (pre post : list Z) (b b' : Z) :
  is_byte b -> is_byte b' -> Forall is_byte post -> b <> b' ->
  _calculate_crc (pre ++ b :: post) <> _calculate_crc (pre ++ b' :: post).
Proof.
  intros Hb Hb' Hpost Hne. unfold _calculate_crc.
  rewrite !fold_left_app. simpl.
  assert (Hc : is_byte (fold_left crc_byte pre 255%Z)).
  { apply crc_fold_range. unfold is_byte. lia. }
  apply crc_fold_separates; try apply crc_byte_range; try assumption.
  apply crc_byte_separates_bytes; assumption.
Qed.

Lemma crc_detects_single_byte_change_witness :
  _calculate_crc [190; 239]%Z <> _calculate_crc [191; 239]%Z.
Proof.
  apply (crc_detects_single_byte_change [] [239%Z] 190%Z 191%Z).
  - unfold is_byte. lia.
  - unfold is_byte. lia.
  - constructor; [ unfold is_byte; lia | constructor ].
  - discriminate.
Defined.

(** X28.  [_convert_temperature] maps the 16-bit raw range onto -45 to 130
    degrees, shifted by the calibration offset: raw 0 gives -45 + offset, raw
    65535 gives 130 + offset, and a larger raw value never gives a lower
    temperature. *)
Theorem temperature_conversion_range (s : Sensor) (raw raw' : Z) :
  (0 <= raw <= 65535)%Z ->
  (-45 + temp_offset s <= _convert_temperature s raw /\
   _convert_temperature s raw <= 130 + temp_offset s) /\
  ((raw <= raw')%Z ->
   _convert_temperature s raw <= _convert_temperature s raw') /\
  _convert_temperature s 0 == -45 + temp_offset s /\
  _convert_temperature s 65535 == 130 + temp_offset s.
Proof.
  intros [Hlo Hhi]. unfold _convert_temperature, Qdiv.
  assert (Hinv : / 65535 == 1 # 65535) by reflexivity.
  assert (Qlo : 0 <= inject_Z raw)
    by (pose proof Hlo as H; rewrite Zle_Qle in H; exact H).
  assert (Qhi : inject_Z raw <= 65535)
    by (pose proof Hhi as H; rewrite Zle_Qle in H; exact H).
  rewrite !Hinv.
  split; [ split; lra | ].
  split;
    [ | split; [ change (inject_Z 0) with 0
               | change (inject_Z 65535) with 65535 ]; ring ].
  intros Hle.
  assert (Qle' : inject_Z raw <= inject_Z raw')
    by (pose proof Hle as H; rewrite Zle_Qle in H; exact H).
  lra.
Qed.

Lemma temperature_conversion_range_witness :
  -45 + 0 <= _convert_temperature (mkSensor 0 0 [] [] 10) 26214 /\
  _convert_temperature (mkSensor 0 0 [] [] 10) 26214 <= 130 + 0.
Proof.
  apply (temperature_conversion_range (mkSensor 0 0 [] [] 10) 26214 26214).
  lia.
Defined.

Lemma length_append_bounded (maxlen : nat) (l : list Q) (x : Q) :
  (length l <= maxlen)%nat ->
  (length (append_bounded maxlen l x) <= maxlen)%nat.
Proof.
  intros H. unfold append_bounded.
  destruct (maxlen <? length (l ++ [x]))%nat eqn:E.
  - apply Nat.ltb_lt in E. rewrite length_app in E. simpl in E.
    destruct l; simpl in *; [ lia | ]. rewrite length_app. simpl. lia.
  - apply Nat.ltb_ge in E. exact E.
Qed.

Lemma smooth_tl (bound : Q) (l : list Q) : smooth bound l -> smooth bound (tl l).
Proof.
  destruct l as [| x [| y rest]]; simpl; tauto.
Qed.

Lemma smooth_snoc (bound : Q) (l : list Q) (x : Q) :
  smooth bound l ->
  (l <> [] -> Qabs (x - last l 0) <= bound) ->
  smooth bound (l ++ [x]).
Proof.
  induction l as [| a rest IH]; intros Hs Hlast.
  - simpl. exact I.
  - destruct rest as [| b rest'].
    + simpl. split; [ | exact I ]. apply Hlast. discriminate.
    + destruct Hs as [Hab Hrest].
      change (smooth bound (a :: b :: (rest' ++ [x]))).
      split; [ exact Hab | ].
      apply IH; [ exact Hrest | ].
      intros _. apply Hlast. discriminate.
Qed.

Lemma smooth_append_bounded (bound : Q) (maxlen : nat) (l : list Q) (x : Q) :
  smooth bound l ->
  (l <> [] -> Qabs (x - last l 0) <= bound) ->
  smooth bound (append_bounded maxlen l x).
Proof.
  intros Hs Hl. unfold append_bounded.
  destruct (maxlen <? length (l ++ [x]))%nat.
  - apply smooth_tl. apply smooth_snoc; assumption.
  - apply smooth_snoc; assumption.
Qed.

Lemma validated_reading (s : Sensor) (t h : Q) :
  _validate_reading s t h = true ->
  (-40 <= t /\ t <= 125) /\ (0 <= h /\ h <= 100) /\
  (temp_history s <> [] -> Qabs (t - last (temp_history s) 0) <= 10) /\
  (humidity_history s <> [] ->
   Qabs (h - last (humidity_history s) 0) <= 20).
Proof.
  unfold _validate_reading.
  destruct (Qle_bool (-40) t && Qle_bool t 125) eqn:Et; simpl;
    [ | discriminate ].
  destruct (Qle_bool 0 h && Qle_bool h 100) eqn:Eh; simpl;
    [ | discriminate ].
  apply andb_true_iff in Et, Eh. destruct Et as [T1 T2], Eh as [H1 H2].
  apply Qle_bool_iff in T1, T2, H1, H2.
  destruct (temp_history s) as [| a l] eqn:Eth.
  - destruct (humidity_history s) as [| b m] eqn:Ehh.
    + intros _. repeat split; auto; congruence.
    + destruct (Qlt_bool 20 _) eqn:E2; [ discriminate | ].
      intros _. apply Qlt_bool_false_iff in E2.
      repeat split; auto; congruence.
  - destruct (Qlt_bool 10 _) eqn:E1; [ discriminate | ].
    apply Qlt_bool_false_iff in E1.
    destruct (humidity_history s) as [| b m] eqn:Ehh.
    + intros _. repeat split; auto; congruence.
    + destruct (Qlt_bool 20 _) eqn:E2; [ discriminate | ].
      intros _. apply Qlt_bool_false_iff in E2.
      repeat split; auto.
Qed.

Lemma last_append_bounded (maxlen : nat) (l : list Q) (x : Q) :
  (0 < maxlen)%nat -> last (append_bounded maxlen l x) 0 = x.
Proof.
  intros Hpos. unfold append_bounded.
  destruct (maxlen <? length (l ++ [x]))%nat eqn:E.
  - apply Nat.ltb_lt in E. rewrite length_app in E. simpl in E.
    destruct l as [| a l']; simpl in *; [ lia | ]. apply last_last.
  - apply last_last.
Qed.

(** X29.  A reading that [_validate_reading] accepts lies inside the physical
    ranges, and recording it with [_update_history] keeps both histories
    within [max_history] entries and keeps neighbouring entries at most 10
    degrees and 20 percent apart; with room for at least one entry the
    accepted reading is the newest entry of both. *)
Theorem validated_history_stays_smooth (s : Sensor) (t h : Q) :
  (length (temp_history s) <= max_history s)%nat ->
  (length (humidity_history s) <= max_history s)%nat ->
  smooth 10 (temp_history s) -> smooth 20 (humidity_history s) ->
  _validate_reading s t h = true ->
  let s' := _update_history s t h in
  (-40 <= t /\ t <= 125 /\ 0 <= h /\ h <= 100) /\
  (length (temp_history s') <= max_history s')%nat /\
  (length (humidity_history s') <= max_history s')%nat /\
  smooth 10 (temp_history s') /\ smooth 20 (humidity_history s') /\
  ((0 < max_history s)%nat ->
   last (temp_history s') 0 = t /\ last (humidity_history s') 0 = h).
Proof.
  intros Lt Lh St Sh Ev. cbv zeta.
  apply validated_reading in Ev.
  destruct Ev as ((T1 & T2) & (H1 & H2) & Ht & Hh).
  cbn [_update_history temp_history humidity_history max_history].
  split; [ repeat split; assumption | ].
  split; [ apply length_append_bounded; exact Lt | ].
  split; [ apply length_append_bounded; exact Lh | ].
  split; [ apply smooth_append_bounded; assumption | ].
  split; [ apply smooth_append_bounded; assumption | ].
  intros Hpos. split; apply last_append_bounded; exact Hpos.
Qed.

Lemma validated_history_stays_smooth_witness :
  smooth 10 (temp_history (_update_history (mkSensor 0 0 [5] [90] 10) 7 88))
  /\ last (temp_history (_update_history (mkSensor 0 0 [5] [90] 10) 7 88)) 0
     = 7.
Proof.
  destruct (validated_history_stays_smooth (mkSensor 0 0 [5] [90] 10) 7 88)
    as (_ & _ & _ & Hs & _ & Hl).
  - simpl. lia.
  - simpl. lia.
  - exact I.
  - exact I.
  - reflexivity.
  - split; [ exact Hs | ]. apply Hl. simpl. lia.
Defined.

End SensorTheory.

(** * The control loop: applying a decision *)

Module LoopTheory.
Import ControlLoop LoopScenarios.

Lemma setters_keep_the_others (c : Actuators.ActuatorController) (on : bool)
    (w : World) :
  (Actuators.chiller (snd (fst (Actuators.set_pump c on w)))
   = Actuators.chiller c /\
   Actuators.dehumidifier (snd (fst (Actuators.set_pump c on w)))
   = Actuators.dehumidifier c) /\
  (Actuators.pump (snd (fst (Actuators.set_chiller c on w)))
   = Actuators.pump c /\
   Actuators.dehumidifier (snd (fst (Actuators.set_chiller c on w)))
   = Actuators.dehumidifier c) /\
  (Actuators.pump (snd (fst (Actuators.set_dehumidifier c on w)))
   = Actuators.pump c /\
   Actuators.chiller (snd (fst (Actuators.set_dehumidifier c on w)))
   = Actuators.chiller c).
Proof.
  split; [ | split ].
  - unfold Actuators.set_pump, bind, ret.
    pose proof (ActuatorTheory.check_water_level_keeps c w)
      as (_ & _ & Kc & Kd & _).
    destruct on.
    + destruct (Actuators.check_water_level c w) as [[ok c1] w1].
      cbn [fst snd] in *. destruct ok; cbn [andb negb].
      * destruct (Actuators.command c1 (Actuators.pump c1) true w1)
          as [[s a] w2]. simpl. split; assumption.
      * simpl. split; assumption.
    + cbn [andb negb].
      destruct (Actuators.command c (Actuators.pump c) false w)
        as [[s a] w2]. simpl. split; reflexivity.
  - unfold Actuators.set_chiller, bind, ret.
    destruct (Actuators.command c (Actuators.chiller c) on w)
      as [[s a] w2]. simpl. split; reflexivity.
  - unfold Actuators.set_dehumidifier, bind, ret.
    destruct (Actuators.command c (Actuators.dehumidifier c) on w)
      as [[s a] w2]. simpl. split; reflexivity.
Qed.

Lemma is_on_false (a : Actuators.Actuator) :
  is_on a = false <-> Actuators.state a <> Actuators.ON.
Proof. apply ActuatorTheory.state_eqb_neq. Qed.

(** What [command_if_differs] leaves when the target is off. *)
Lemma off_target_pump (c : Actuators.ActuatorController) (w : World) :
  let c' := fst (command_if_differs c Actuators.pump Actuators.set_pump
                   false w) in
  Actuators.state (Actuators.pump c') <> Actuators.ON.
Proof.
  unfold command_if_differs, bind, ret.
  destruct (is_on (Actuators.pump c)) eqn:E; simpl.
  - rewrite ActuatorTheory.set_pump_off. simpl.
    apply ActuatorTheory.command_off_not_on.
  - apply is_on_false. exact E.
Qed.

Lemma off_target_chiller (c : Actuators.ActuatorController) (w : World) :
  let c' := fst (command_if_differs c Actuators.chiller
                   Actuators.set_chiller false w) in
  Actuators.state (Actuators.chiller c') <> Actuators.ON.
Proof.
  unfold command_if_differs, bind, ret.
  destruct (is_on (Actuators.chiller c)) eqn:E; simpl.
  - rewrite ActuatorTheory.set_chiller_off. simpl.
    apply ActuatorTheory.command_off_not_on.
  - apply is_on_false. exact E.
Qed.

Lemma off_target_dehumidifier (c : Actuators.ActuatorController)
    (w : World) :
  let c' := fst (command_if_differs c Actuators.dehumidifier
                   Actuators.set_dehumidifier false w) in
  Actuators.state (Actuators.dehumidifier c') <> Actuators.ON.
Proof.
  unfold command_if_differs, bind, ret.
  destruct (is_on (Actuators.dehumidifier c)) eqn:E; simpl.
  - rewrite ActuatorTheory.set_dehumidifier_off. simpl.
    apply ActuatorTheory.command_off_not_on.
  - apply is_on_false. exact E.
Qed.

Lemma command_if_differs_others (c : Actuators.ActuatorController)
    (wanted : bool) (w : World) :
  (Actuators.chiller
     (fst (command_if_differs c Actuators.pump Actuators.set_pump wanted w))
   = Actuators.chiller c /\
   Actuators.dehumidifier
     (fst (command_if_differs c Actuators.pump Actuators.set_pump wanted w))
   = Actuators.dehumidifier c) /\
  (Actuators.pump
     (fst (command_if_differs c Actuators.chiller Actuators.set_chiller
             wanted w))
   = Actuators.pump c /\
   Actuators.dehumidifier
     (fst (command_if_differs c Actuators.chiller Actuators.set_chiller
             wanted w))
   = Actuators.dehumidifier c) /\
  (Actuators.pump
     (fst (command_if_differs c Actuators.dehumidifier
             Actuators.set_dehumidifier wanted w))
   = Actuators.pump c /\
   Actuators.chiller
     (fst (command_if_differs c Actuators.dehumidifier
             Actuators.set_dehumidifier wanted w))
   = Actuators.chiller c).
Proof.
  pose proof (setters_keep_the_others c wanted w) as (Hp & Hc & Hd).
  unfold command_if_differs, bind, ret.
  split; [ | split ].
  - destruct (negb _); [ | split; reflexivity ].
    destruct (Actuators.set_pump c wanted w) as [[s c1] w1]. exact Hp.
  - destruct (negb _); [ | split; reflexivity ].
    destruct (Actuators.set_chiller c wanted w) as [[s c1] w1]. exact Hc.
  - destruct (negb _); [ | split; reflexivity ].
    destruct (Actuators.set_dehumidifier c wanted w) as [[s c1] w1].
    exact Hd.
Qed.

(** X30.  Without manual override, on aligned histories, one pass of
    [_make_control_decision] gets a decision, and every actuator the decision
    wants off is not ON afterwards, whatever the cycle timers and the water
    level say; the engine has taken over the decision and its mode, and no
    error is counted. *)
Theorem off_targets_take_effect (sys : ClimateControlSystem) (t h : Q)
    (w : World) :
  EngineSpec.histories_aligned (control_engine sys) ->
  manual_override sys = false ->
  exists d,
    fst (fst (ControlEngine.make_decision (control_engine sys) t h w))
    = ControlEngine.Ok d /\
    let sys' := fst (_make_control_decision sys t h w) in
    (ControlEngine.pump d = false ->
     Actuators.state (Actuators.pump (actuator_controller sys'))
     <> Actuators.ON) /\
    (ControlEngine.chiller d = false ->
     Actuators.state (Actuators.chiller (actuator_controller sys'))
     <> Actuators.ON) /\
    (ControlEngine.dehumidifier d = false ->
     Actuators.state (Actuators.dehumidifier (actuator_controller sys'))
     <> Actuators.ON) /\
    ControlEngine.current_mode (control_engine sys') = ControlEngine.mode d /\
    ControlEngine.last_decision (control_engine sys') = Some d /\
    error_count sys' = error_count sys.
Proof.
  intros Hal Hman.
  unfold _make_control_decision, bind. rewrite Hman.
  destruct (EngineExtras.make_decision_total (control_engine sys) t h w Hal)
    as [d Hd].
  exists d. split; [ exact Hd | ].
  destruct (ControlEngine.make_decision (control_engine sys) t h w)
    as [[r e1] w0]. cbn [fst] in Hd. subst r.
  destruct (time_time w0) as [logged_at w1].
  unfold ret.
  pose proof (off_target_pump (actuator_controller sys) w1) as Op.
  pose proof (command_if_differs_others (actuator_controller sys)
                (ControlEngine.pump d) w1) as ((P1 & P2) & _).
  destruct (command_if_differs (actuator_controller sys) Actuators.pump
              Actuators.set_pump (ControlEngine.pump d) w1) as [c1 w2] eqn:E1.
  pose proof (off_target_chiller c1 w2) as Oc.
  pose proof (command_if_differs_others c1 (ControlEngine.chiller d) w2)
    as (_ & (C1 & C2) & _).
  destruct (command_if_differs c1 Actuators.chiller Actuators.set_chiller
              (ControlEngine.chiller d) w2) as [c2 w3] eqn:E2.
  pose proof (off_target_dehumidifier c2 w3) as Od.
  pose proof (command_if_differs_others c2 (ControlEngine.dehumidifier d) w3)
    as (_ & _ & (D1 & D2)).
  destruct (command_if_differs c2 Actuators.dehumidifier
              Actuators.set_dehumidifier (ControlEngine.dehumidifier d) w3)
    as [c3 w4] eqn:E3.
  pose proof (EngineExtras.execute_decision_records e1 d w4)
    as (Hm & Hl & _).
  destruct (ControlEngine.execute_decision e1 d w4) as [e2 w5].
  cbn [fst snd control_engine actuator_controller error_count] in *.
  repeat split; auto.
  - intros Hp. rewrite Hp in E1. rewrite E1 in Op. cbn [fst] in Op.
    rewrite D1, C1. exact Op.
  - intros Hc. rewrite Hc in E2. rewrite E2 in Oc. cbn [fst] in Oc.
    rewrite D2. exact Oc.
  - intros Hdh. rewrite Hdh in E3. rewrite E3 in Od. cbn [fst] in Od.
    exact Od.
Qed.

Lemma off_targets_take_effect_witness :
  Actuators.state
    (Actuators.chiller
       (actuator_controller
          (fst (_make_control_decision overrun_system 11 (875 # 10)
                  (EngineSpec.ticking [] 2000)))))
  <> Actuators.ON.
Proof.
  destruct (off_targets_take_effect overrun_system 11 (875 # 10)
              (EngineSpec.ticking [] 2000))
    as (d & Hd & _ & Hc & _).
  - apply EngineTheory.init_aligned.
  - reflexivity.
  - apply Hc. vm_compute in Hd. injection Hd as <-. reflexivity.
Defined.

(** X22.  Under manual override [_make_control_decision] never commands an
    actuator: the controller is left as it was, while the decision is still
    executed on the engine for the statistics.  When [make_decision] raises,
    the controller is left as it was too, one error is counted, and the
    engine's mode and decision counter do not move. *)
Theorem override_and_errors_spare_actuators (sys : ClimateControlSystem)
    (t h : Q) (w : World) :
  let sys' := fst (_make_control_decision sys t h w) in
  (manual_override sys = true ->
   actuator_controller sys' = actuator_controller sys /\
   forall d,
     fst (fst (ControlEngine.make_decision (control_engine sys) t h w))
     = ControlEngine.Ok d ->
     ControlEngine.current_mode (control_engine sys')
     = ControlEngine.mode d /\
     ControlEngine.last_decision (control_engine sys') = Some d /\
     error_count sys' = error_count sys) /\
  (forall ex,
     fst (fst (ControlEngine.make_decision (control_engine sys) t h w))
     = ControlEngine.Raise ex ->
     actuator_controller sys' = actuator_controller sys /\
     error_count sys' = S (error_count sys) /\
     ControlEngine.current_mode (control_engine sys')
     = ControlEngine.current_mode (control_engine sys) /\
     ControlEngine.decisions_made (control_engine sys')
     = ControlEngine.decisions_made (control_engine sys)).
Proof.
  cbv zeta. unfold _make_control_decision, bind.
  pose proof (EngineExtras.make_decision_engine (control_engine sys) t h w)
    as He.
  destruct (ControlEngine.make_decision (control_engine sys) t h w)
    as [[r e1] w0]. cbn [fst snd] in *.
  split.
  - intros Hman. rewrite Hman. destruct r as [d | ex].
    + destruct (time_time w0) as [logged_at w1].
      pose proof (EngineExtras.execute_decision_records e1 d w1)
        as (Hm & Hl & _).
      destruct (ControlEngine.execute_decision e1 d w1) as [e2 w2].
      unfold ret. cbn [fst snd actuator_controller control_engine
                       error_count] in *.
      split; [ reflexivity | ].
      intros d' Hd. injection Hd as <-. repeat split; assumption.
    + unfold ret. cbn [fst actuator_controller error_count].
      split; [ reflexivity | ].
      intros d' Hd. discriminate.
  - intros ex Hr. subst r. unfold ret.
    cbn [fst actuator_controller control_engine error_count].
    rewrite He. repeat split.
Qed.

End LoopTheory.
